(** * NFC Type 2 tag tools: TLV framing, NDEF records, URI payloads,
      tag topology, lock bytes and the formatter.

    A shallow embedding of the analysis tool (the NDEF/TLV parser, the tag
    type probe and the lock byte decoder) and of the writer tool
    ([buildURIRecord], [formatType2Tag], [writeNDEFToType2]).

    Conventions.
    - A Go [byte] is a [Byte.byte]; [[]byte] is [list byte].
    - A Go [string] is a [String.string] (a sequence of 8-bit characters);
      the conversions [[]byte(s)] and [string(b)] are
      [list_byte_of_string] and [string_of_list_byte].
    - Offsets and lengths (Go [int], never negative in this code and bounded
      by the buffer length plus 257) are [nat]; the [uint32] payload length
      of a long record is an [N].
    - The tools print what they find; the embedding returns the printed
      facts as data, in the order the code prints them. *)

From Stdlib Require Import List Arith NArith ZArith Bool Lia.
From Stdlib Require Import Strings.Byte Strings.Ascii Strings.String.
From Stdlib Require Import DecimalString DecimalNat.
Import ListNotations.

Local Open Scope string_scope.
Local Open Scope list_scope.

(** ** Bytes and strings *)

(** [int(b)] for a byte [b]. *)
Definition int_of_byte (b : byte) : nat := N.to_nat (Byte.to_N b).

(** [byte(n)]: the conversion of an integer to a byte keeps the low 8 bits. *)
Definition byte_of_N (n : N) : byte :=
  match Byte.of_N (n mod 256) with
  | Some b => b
  | None => x00
  end.

Definition byte_of_int (n : nat) : byte := byte_of_N (N.of_nat n).

(** [s[n:]] on strings. *)
Fixpoint string_drop (n : nat) (s : string) : string :=
  match n, s with
  | O, _ => s
  | S n', String _ s' => string_drop n' s'
  | S _, EmptyString => EmptyString
  end.

(** [strings.HasPrefix] and [strings.TrimPrefix]. *)
Definition HasPrefix (s p : string) : bool := String.prefix p s.

Definition TrimPrefix (s p : string) : string :=
  if HasPrefix s p then string_drop (String.length p) s else s.

(** ** URI payloads *)

Module URI.

(** [getURIPrefix]: the table of identifier codes; a code that is not in the
    map gives the marker ["Unknown prefix"]. *)
Definition getURIPrefix (code : byte) : string :=
  match code with
  | x00 => ""
  | x01 => "http://www."
  | x02 => "https://www."
  | x03 => "http://"
  | x04 => "https://"
  | x05 => "tel:"
  | x06 => "mailto:"
  | x07 => "ftp://anonymous:anonymous@"
  | x08 => "ftp://ftp."
  | x09 => "ftps://"
  | x0a => "sftp://"
  | x0b => "smb://"
  | x0c => "nfs://"
  | x0d => "ftp://"
  | x0e => "dav://"
  | x0f => "news:"
  | x10 => "telnet://"
  | x11 => "imap:"
  | x12 => "rtsp://"
  | x13 => "urn:"
  | x14 => "pop:"
  | x15 => "sip:"
  | x16 => "sips:"
  | x17 => "tftp:"
  | x18 => "btspp://"
  | x19 => "btl2cap://"
  | x1a => "btgoep://"
  | x1b => "tcpobex://"
  | x1c => "irdaobex://"
  | x1d => "file://"
  | x1e => "urn:epc:id:"
  | x1f => "urn:epc:tag:"
  | x20 => "urn:epc:pat:"
  | x21 => "urn:epc:raw:"
  | x22 => "urn:epc:"
  | x23 => "urn:nfc:"
  | _ => "Unknown prefix"
  end.

(** What [parseURIPayload] reports. *)
Inductive URIView : Type :=
| EmptyURIPayload
| FullURI (fullURI : string) (identifierCode : byte) (prefix suffix : string)
| PrefixOnly (prefix : string) (identifierCode : byte)
| NoSuffix.

Definition parseURIPayload (payload : list byte) : URIView :=
  match payload with
  | [] => EmptyURIPayload
  | identifierCode :: rest =>
      let prefix := getURIPrefix identifierCode in
      if (1 <? List.length payload)%nat then
        let suffix := string_of_list_byte rest in
        FullURI (prefix ++ suffix)%string identifierCode prefix suffix
      else if negb (String.eqb prefix "") then PrefixOnly prefix identifierCode
      else NoSuffix
  end.

(** The URI that a report shows, if it shows one. *)
Definition shownURI (v : URIView) : option string :=
  match v with
  | FullURI u _ _ _ => Some u
  | PrefixOnly u _ => Some u
  | EmptyURIPayload | NoSuffix => None
  end.

(** The URI codec's decoder: the URI printed for a payload. *)
Definition decodeURI (payload : list byte) : option string :=
  shownURI (parseURIPayload payload).

(** The first lines of [buildURIRecord]: the payload of the URI record. *)
Definition uriPayload (uri : string) : list byte :=
  let trimmed := TrimPrefix (TrimPrefix uri "http://") "https://" in
  [x04] ++ list_byte_of_string trimmed.

(** [buildURIRecord]: a single short record of well-known type 'U'. *)
Definition buildURIRecord (uri : string) : list byte :=
  let payload := uriPayload uri in
  let header := xd1 in
  let typeLen := x01 in
  let payloadLen := byte_of_int (List.length payload) in
  let typ := x55 in
  [header; typeLen; payloadLen; typ] ++ payload.

End URI.

(** ** Slices *)

Definition len (data : list byte) : nat := List.length data.

(** [data[i]]; every use below is guarded as in the source, so the default
    is never returned. *)
Definition byteAt (data : list byte) (i : nat) : byte := nth i data x00.

(** [data[a:b]] and [data[a:]]. *)
Definition slice (data : list byte) (a b : nat) : list byte :=
  firstn (b - a) (skipn a data).

Definition sliceFrom (data : list byte) (a : nat) : list byte := skipn a data.

(** [(b & mask) != 0] on a byte. *)
Definition maskSet (b : byte) (mask : N) : bool :=
  negb (N.land (Byte.to_N b) mask =? 0)%N.

(** ** Text payloads *)

Module Text.

Inductive TextView : Type :=
| EmptyTextPayload
| InvalidTextRecord
| TextRecord (textData langCode : string) (utf16 : bool).

Definition parseTextPayload (payload : list byte) : TextView :=
  match payload with
  | [] => EmptyTextPayload
  | statusByte :: _ =>
      let utf16 := maskSet statusByte 0x80 in
      let langCodeLen := N.to_nat (N.land (Byte.to_N statusByte) 0x3F) in
      if (len payload <? 1 + langCodeLen)%nat then InvalidTextRecord
      else
        let langCode := string_of_list_byte (slice payload 1 (1 + langCodeLen)) in
        let textData := sliceFrom payload (1 + langCodeLen) in
        TextRecord (string_of_list_byte textData) langCode utf16
  end.

End Text.

(** ** NDEF messages *)

Module NDEF.

(** The flags and the type name format of a record header byte. *)
Record Header : Type := mkHeader
  { header : byte;
    mb : bool;  (* Message Begin *)
    me : bool;  (* Message End *)
    cf : bool;  (* Chunk Flag *)
    sr : bool;  (* Short Record *)
    il : bool;  (* ID Length present *)
    tnf : N     (* Type Name Format *) }.

Definition decodeHeader (h : byte) : Header :=
  {| header := h;
     mb := maskSet h 0x80;
     me := maskSet h 0x40;
     cf := maskSet h 0x20;
     sr := maskSet h 0x10;
     il := maskSet h 0x08;
     tnf := N.land (Byte.to_N h) 0x07 |}.

Definition getTNFDescription (tnf : N) : string :=
  match tnf with
  | 0%N => "Empty"
  | 1%N => "Well-known"
  | 2%N => "Media type"
  | 3%N => "Absolute URI"
  | 4%N => "External"
  | 5%N => "Unknown"
  | 6%N => "Unchanged"
  | 7%N => "Reserved"
  | _ => "Invalid"
  end.

(** How the payload of a record was interpreted. *)
Inductive PayloadView : Type :=
| NotParsed
| URIPayload (v : URI.URIView)
| TextPayload (v : Text.TextView)
| UnknownWellKnown (c : byte).

(** What one turn of the record loop prints after the header: either the
    error it stopped at, with the fields read before it, or the record. *)
Inductive RecordBody : Type :=
| MissingTypeLength
| MissingPayloadLength (typeLength : byte)
| MissingIDLength (typeLength : byte) (payloadLength : N)
| TypeExceeds (typeLength : byte) (payloadLength : N) (idLength : byte)
| IDExceeds (typeLength : byte) (payloadLength : N) (idLength : byte)
    (recordType : list byte)
| PayloadExceeds (typeLength : byte) (payloadLength : N) (idLength : byte)
    (recordType id : list byte) (remaining : nat) (partial : list byte)
    (view : PayloadView)
| Parsed (typeLength : byte) (payloadLength : N) (idLength : byte)
    (recordType id : list byte) (payload : list byte) (view : PayloadView).

Record RecordReport : Type := mkReport
  { recordNum : nat;
    flags : Header;
    body : RecordBody }.

(** The big-endian 32-bit payload length of a long record. *)
Definition be32 (b0 b1 b2 b3 : byte) : N :=
  N.lor (N.lor (N.lor (N.shiftl (Byte.to_N b0) 24) (N.shiftl (Byte.to_N b1) 16))
               (N.shiftl (Byte.to_N b2) 8))
        (Byte.to_N b3).

(** The interpretation of a complete payload. *)
Definition viewPayload (typeLength : byte) (recordType payload : list byte)
  : PayloadView :=
  if (int_of_byte typeLength =? 1)%nat && (0 <? len recordType)%nat then
    match byteAt recordType 0 with
    | x55 => URIPayload (URI.parseURIPayload payload)       (* 'U' *)
    | x54 => TextPayload (Text.parseTextPayload payload)    (* 'T' *)
    | c => UnknownWellKnown c
    end
  else NotParsed.

(** The interpretation of a truncated payload: only URI records are tried. *)
Definition viewPartial (typeLength : byte) (recordType payload : list byte)
  : PayloadView :=
  if (int_of_byte typeLength =? 1)%nat && (0 <? len recordType)%nat
     && Byte.eqb (byteAt recordType 0) x55
  then URIPayload (URI.parseURIPayload payload)
  else NotParsed.

(** One turn of the loop of [parseNDEFMessage], entered with
    [offset < len data]: what is printed, and the offset of the next record
    when the loop goes on ([None] for [break]). *)
Definition parseRecord (data : list byte) (offset : nat)
  : RecordBody * option nat :=
  let h := decodeHeader (byteAt data offset) in
  let offset := offset + 1 in
  if (len data <=? offset)%nat then (MissingTypeLength, None) else
  let typeLength := byteAt data offset in
  let offset := offset + 1 in
  match
    (if sr h then
       if (len data <=? offset)%nat then None
       else Some (Byte.to_N (byteAt data offset), offset + 1)
     else
       if (len data <=? offset + 3)%nat then None
       else Some (be32 (byteAt data offset) (byteAt data (offset + 1))
                       (byteAt data (offset + 2)) (byteAt data (offset + 3)),
                  offset + 4))
  with
  | None => (MissingPayloadLength typeLength, None)
  | Some (payloadLength, offset) =>
  match
    (if il h then
       if (len data <=? offset)%nat then None
       else Some (byteAt data offset, offset + 1)
     else Some (x00, offset))
  with
  | None => (MissingIDLength typeLength payloadLength, None)
  | Some (idLength, offset) =>
  match
    (if (0 <? int_of_byte typeLength)%nat then
       if (len data <? offset + int_of_byte typeLength)%nat then None
       else Some (slice data offset (offset + int_of_byte typeLength),
                  offset + int_of_byte typeLength)
     else Some ([], offset))
  with
  | None => (TypeExceeds typeLength payloadLength idLength, None)
  | Some (recordType, offset) =>
  match
    (if il h && (0 <? int_of_byte idLength)%nat then
       if (len data <? offset + int_of_byte idLength)%nat then None
       else Some (slice data offset (offset + int_of_byte idLength),
                  offset + int_of_byte idLength)
     else Some ([], offset))
  with
  | None => (IDExceeds typeLength payloadLength idLength recordType, None)
  | Some (id, offset) =>
      if (0 <? payloadLength)%N then
        if (len data <? offset + N.to_nat payloadLength)%nat then
          let remaining := len data - offset in
          if (0 <? remaining)%nat then
            let payload := sliceFrom data offset in
            (PayloadExceeds typeLength payloadLength idLength recordType id
               remaining payload (viewPartial typeLength recordType payload),
             None)
          else
            (PayloadExceeds typeLength payloadLength idLength recordType id
               remaining [] NotParsed, None)
        else
          let payload := slice data offset (offset + N.to_nat payloadLength) in
          (Parsed typeLength payloadLength idLength recordType id payload
             (viewPayload typeLength recordType payload),
           if me h then None else Some (offset + N.to_nat payloadLength))
      else
        (Parsed typeLength payloadLength idLength recordType id [] NotParsed,
         if me h then None else Some offset)
  end end end end.

(** The loop of [parseNDEFMessage].  Every turn that goes on moves the
    offset forward, so [len data] turns are enough; [None] means that the
    turns ran out (see [parseLoop_total]). *)
Fixpoint parseLoop (fuel : nat) (data : list byte) (offset recordNum : nat)
  : option (list RecordReport) :=
  if (offset <? len data)%nat then
    match fuel with
    | O => None
    | S fuel' =>
        let r := parseRecord data offset in
        let report := mkReport recordNum (decodeHeader (byteAt data offset)) (fst r) in
        match snd r with
        | None => Some [report]
        | Some offset' =>
            option_map (cons report) (parseLoop fuel' data offset' (S recordNum))
        end
    end
  else Some [].

(** [parseNDEFMessage]: the records printed for a message; the empty list
    stands for the line "(Empty NDEF message)". *)
Definition parseNDEFMessage (data : list byte) : list RecordReport :=
  match parseLoop (len data) data 0 1 with
  | Some reports => reports
  | None => []
  end.

(** The URI shown for a record, if its payload was read as a URI. *)
Definition recordURI (r : RecordReport) : option string :=
  match body r with
  | Parsed _ _ _ _ _ _ (URIPayload v) => URI.shownURI v
  | PayloadExceeds _ _ _ _ _ _ _ (URIPayload v) => URI.shownURI v
  | _ => None
  end.

End NDEF.

(** ** TLV blocks of the data area *)

Module TLV.

(** What [analyzeNDEFStructure] prints for one TLV block. *)
Inductive TLVEntry : Type :=
| Null
| NDEFMissingLength
| NDEFEmpty
| NDEFTruncated (length : byte) (remaining : nat) (partial : list byte)
    (records : list NDEF.RecordReport)
| NDEFMessage (length : byte) (ndefData : list byte)
    (records : list NDEF.RecordReport)
| Terminator (complete : bool)
| Proprietary (length : option byte)
| Invalid.

(** The lines of the analysis: one per TLV type byte read, with the page and
    the byte in the page where it was read, and the two lines that stand
    alone. *)
Inductive Report : Type :=
| Entry (currentPage : Z) (byteInPage : nat) (tlvType : byte) (e : TLVEntry)
| NoNDEFFound
| NoData.

(** One turn of the loop: go on from a new offset, or [return]. *)
Inductive Step : Type :=
| Continue (e : TLVEntry) (offset : nat) (foundNDEF : bool)
| Return (e : TLVEntry).

Definition tlvStep (data : list byte) (offset : nat) (foundNDEF : bool) : Step :=
  let tlvType := byteAt data offset in
  match tlvType with
  | x00 => Continue Null (offset + 1) foundNDEF
  | x03 =>
      if (len data <=? offset + 1)%nat then
        Continue NDEFMissingLength (offset + 1) true
      else
        let length := byteAt data (offset + 1) in
        if (int_of_byte length =? 0)%nat then
          Continue NDEFEmpty (offset + 2) true
        else if (len data <? offset + 2 + int_of_byte length)%nat then
          let remaining := len data - offset - 2 in
          if (0 <? remaining)%nat then
            let ndefData := slice data (offset + 2) (offset + 2 + remaining) in
            Return (NDEFTruncated length remaining ndefData
                      (NDEF.parseNDEFMessage ndefData))
          else Return (NDEFTruncated length remaining [] [])
        else
          let ndefData := slice data (offset + 2) (offset + 2 + int_of_byte length) in
          Continue (NDEFMessage length ndefData (NDEF.parseNDEFMessage ndefData))
                   (offset + 2 + int_of_byte length) true
  | xfe => Return (Terminator foundNDEF)
  | _ =>
      if (1 <=? Byte.to_N tlvType)%N && (Byte.to_N tlvType <=? 0xFD)%N then
        if (offset + 1 <? len data)%nat then
          let length := byteAt data (offset + 1) in
          Continue (Proprietary (Some length)) (offset + 2 + int_of_byte length)
                   foundNDEF
        else Continue (Proprietary None) (offset + 1) foundNDEF
      else Continue Invalid (offset + 1) foundNDEF
  end.

(** The loop of [analyzeNDEFStructure].  Every turn moves the offset
    forward, so [len data - offset] turns are enough; [None] means that the
    turns ran out (see [tlvLoop_total]). *)
Fixpoint tlvLoop (fuel : nat) (data : list byte) (startPage : Z)
    (offset : nat) (foundNDEF : bool) : option (list Report) :=
  if (offset <? len data)%nat then
    match fuel with
    | O => None
    | S fuel' =>
        let tlvType := byteAt data offset in
        let currentPage := (startPage + Z.of_nat (offset / 4))%Z in
        let byteInPage := offset mod 4 in
        match tlvStep data offset foundNDEF with
        | Continue e offset' foundNDEF' =>
            option_map (cons (Entry currentPage byteInPage tlvType e))
                       (tlvLoop fuel' data startPage offset' foundNDEF')
        | Return e => Some [Entry currentPage byteInPage tlvType e]
        end
    end
  else Some (if foundNDEF then [] else [NoNDEFFound]).

(** The analysis from a given offset on. *)
Definition tlvFrom (data : list byte) (startPage : Z) (offset : nat)
    (foundNDEF : bool) : list Report :=
  match tlvLoop (len data - offset) data startPage offset foundNDEF with
  | Some reports => reports
  | None => []
  end.

Definition analyzeNDEFStructure (data : list byte) (startPage : Z) : list Report :=
  if (len data =? 0)%nat then [NoData]
  else tlvFrom data startPage 0 false.

(** The TLV entries among the lines, with the offsets left out. *)
Definition entries (out : list Report) : list TLVEntry :=
  flat_map (fun r => match r with Entry _ _ _ e => [e] | _ => [] end) out.

(** A line is a diagnostic of a truncated block that carries the value
    bytes [v]. *)
Definition carriesTruncatedValue (r : Report) (v : list byte) : Prop :=
  match r with
  | Entry _ _ _ (NDEFTruncated _ _ partial _) => partial = v
  | _ => False
  end.

End TLV.

(** ** Static lock bytes *)

Module Lock.

(** The test of [analyzeLockBytes] for bit [i] of the static lock bytes. *)
Definition bitSet (lock0 lock1 : byte) (i : nat) : bool :=
  if (i <? 8)%nat then
    (N.land (N.shiftr (Byte.to_N lock0) (N.of_nat i)) 1 =? 1)%N
  else
    (N.land (N.shiftr (Byte.to_N lock1) (N.of_nat (i - 8))) 1 =? 1)%N.

(** [fmt.Sprintf("%d", n)] for a number that is not negative. *)
Definition Sprintf_d (n : nat) : string :=
  DecimalString.NilEmpty.string_of_uint (Nat.to_uint n).

(** The loop over [i = 0 .. 15]: the pages reported as locked, as the
    decimal strings the loop appends, in its order. *)
Definition lockedPages (lock0 lock1 : byte) : list string :=
  fold_left
    (fun lockedPages i =>
       if bitSet lock0 lock1 i then lockedPages ++ [Sprintf_d (3 + i)]
       else lockedPages)
    (seq 0 16) [].

(** The 16-bit field with [lock0] as its low byte and [lock1] as its high
    byte. *)
Definition lockField (lock0 lock1 : byte) : N :=
  N.lor (Byte.to_N lock0) (N.shiftl (Byte.to_N lock1) 8).

End Lock.

(** ** The reader: APDUs, page reads and page writes *)

(** The errors the tools build, and the errors of the PC/SC layer, which
    they pass on unchanged. *)
Inductive error : Type :=
| TransportError (code : nat)                 (* from [card.Transmit] *)
| ShortAPDUResponse                           (* "short APDU response" *)
| APDUFailed (sw1 sw2 : byte)                 (* "APDU failed: SW=..." *)
| BadPageLength (n : nat)                     (* "page write must be 4 bytes, got n" *)
| NDEFTooLarge (n : nat)                      (* "NDEF too large for single-byte TLV length: n" *)
| WritePageError (page : byte) (cause : error) (* "write page p: ..." *)
| Wrapped (context : string) (cause : error).  (* "context: ..." *)

Inductive result (A : Type) : Type :=
| Ok (a : A)
| Err (e : error).

Arguments Ok {A} a.
Arguments Err {A} e.

Definition isErr {A : Type} (r : result A) : bool :=
  match r with Ok _ => false | Err _ => true end.

(** The three classes of tag that [identifyTagType] tells apart, the
    fallback for other Type 2 tags, and the answer when nothing can be read;
    [tagTypeName] gives the strings of the source. *)
Inductive TagType : Type := NTAG213 | NTAG215 | NTAG216 | GenericType2 | Unknown.

Definition tagTypeName (t : TagType) : string :=
  match t with
  | NTAG213 => "NTAG213"
  | NTAG215 => "NTAG215"
  | NTAG216 => "NTAG216"
  | GenericType2 => "Type2-compatible"
  | Unknown => "unknown"
  end.

Section Reader.

(** The card behind [*scard.Card]: some state, and the answer of
    [card.Transmit] to an APDU, which may change the state. *)
Variable Card : Type.
Variable cardTransmit : Card -> list byte -> result (list byte) * Card.

(** The card together with the APDUs sent to it so far, oldest first. *)
Record World : Type := mkWorld
  { card : Card;
    sent : list (list byte) }.

Definition IO (A : Type) : Type := World -> A * World.

Definition ret {A : Type} (a : A) : IO A := fun w => (a, w).

Definition bind {A B : Type} (c : IO A) (k : A -> IO B) : IO B :=
  fun w => let (a, w') := c w in k a w'.

Notation "x <- c ;; k" := (bind c (fun x => k))
  (at level 100, c at next level, right associativity).

Definition Transmit (apdu : list byte) : IO (result (list byte)) :=
  fun w =>
    let (resp, card') := cardTransmit (card w) apdu in
    (resp, {| card := card'; sent := sent w ++ [apdu] |}).

(** [transmit]: the response without its status word, which must be
    90 00. *)
Definition transmit (apdu : list byte) : IO (result (list byte)) :=
  r <- Transmit apdu ;;
  match r with
  | Err e => ret (Err e)
  | Ok resp =>
      if (len resp <? 2)%nat then ret (Err ShortAPDUResponse)
      else
        let sw1 := byteAt resp (len resp - 2) in
        let sw2 := byteAt resp (len resp - 1) in
        if negb (Byte.eqb sw1 x90) || negb (Byte.eqb sw2 x00)
        then ret (Err (APDUFailed sw1 sw2))
        else ret (Ok (slice resp 0 (len resp - 2)))
  end.

Definition readAPDU (page : byte) : list byte := [xff; xb0; x00; page; x04].

Definition writeAPDU (page : byte) (data : list byte) : list byte :=
  [xff; xd6; x00; page; x04] ++ data.

Definition readPage (page : byte) : IO (result (list byte)) :=
  transmit (readAPDU page).

(** [writePage]: [None] is Go's [nil] error. *)
Definition writePage (page : byte) (data : list byte) : IO (option error) :=
  if negb (len data =? 4)%nat then ret (Some (BadPageLength (len data)))
  else
    r <- transmit (writeAPDU page data) ;;
    match r with
    | Ok _ => ret None
    | Err e => ret (Some e)
    end.

(** *** The tag type probe *)

Definition identifyTagType : IO string :=
  page0 <- readPage x00 ;;
  match page0 with
  | Err _ => ret "unknown"
  | Ok page0 =>
      if (1 <=? len page0)%nat then
        let uid0 := byteAt page0 0 in
        match uid0 with
        | x04 =>
            r <- readPage x2c ;;
            match r with
            | Err _ => ret "NTAG213"
            | Ok _ =>
                r <- readPage x86 ;;
                match r with
                | Err _ => ret "NTAG215"
                | Ok _ => ret "NTAG216"
                end
            end
        | _ => ret "Type2-compatible"
        end
      else ret "unknown"
  end.

(** *** The formatter *)

Definition lockBytes : list byte := [x00; x00; x00; x00].
Definition cc : list byte := [xe1; x10; x3f; x00].
Definition clearData : list byte := [x00; x00; x00; xfe].

Definition formatType2Tag : IO (option error) :=
  err <- writePage x02 lockBytes ;;
  match err with
  | Some e => ret (Some (Wrapped "write lock bytes" e))
  | None =>
      err <- writePage x03 cc ;;
      match err with
      | Some e => ret (Some (Wrapped "write capability container" e))
      | None =>
          err <- writePage x04 clearData ;;
          match err with
          | Some e => ret (Some (Wrapped "write initial NDEF area" e))
          | None => ret None
          end
      end
  end.

(** *** The TLV writer *)

(** The buffer [tlv] that [writeNDEFToType2] builds before it writes:
    type, length, message, terminator, and the padding to whole pages. *)
Definition ndefTLV (ndef : list byte) : list byte :=
  let tlv := [x03; byte_of_int (len ndef)] in
  let tlv := tlv ++ ndef in
  let tlv := tlv ++ [xfe] in
  let pad := (4 - (len tlv mod 4)) mod 4 in
  if (0 <? pad)%nat then tlv ++ repeat x00 pad else tlv.

(** [page++] on a byte. *)
Definition nextPage (page : byte) : byte := byte_of_N (Byte.to_N page + 1).

(** The loop [for i := 0; i < len(tlv); i += 4], entered at [i] with
    [turns] turns left: [(len tlv - i + 3) / 4] of them. *)
Fixpoint writePages (turns : nat) (tlv : list byte) (i : nat) (page : byte)
  : IO (option error) :=
  match turns with
  | O => ret None
  | S turns' =>
      err <- writePage page (slice tlv i (i + 4)) ;;
      match err with
      | Some e => ret (Some (WritePageError page e))
      | None => writePages turns' tlv (i + 4) (nextPage page)
      end
  end.

Definition writeNDEFToType2 (ndef : list byte) : IO (option error) :=
  if (254 <? len ndef)%nat then ret (Some (NDEFTooLarge (len ndef)))
  else
    let tlv := ndefTLV ndef in
    writePages ((len tlv + 3) / 4) tlv 0 x04.

End Reader.

(** The APDU of turn [k] of the loop of [writeNDEFToType2], when the loop
    is entered at offset [i] and page [page]. *)
Definition pageWrite (tlv : list byte) (i : nat) (page : byte) (k : nat)
  : list byte :=
  writeAPDU (Nat.iter k nextPage page) (slice tlv (i + 4 * k) (i + 4 * k + 4)).

(** A card that answers from a script, one response per APDU, and fails
    when the script is over; it serves to run the tools on examples. *)
Definition scriptedCard (script : list (result (list byte))) (apdu : list byte)
  : result (list byte) * list (result (list byte)) :=
  match script with
  | [] => (Err (TransportError 0), [])
  | response :: rest => (response, rest)
  end.

Arguments card {Card} w.
Arguments sent {Card} w.
Arguments mkWorld {Card} card sent.
Arguments ret {Card A} a w.
Arguments bind {Card A B} c k w.
Arguments Transmit {Card} cardTransmit apdu w.
Arguments transmit {Card} cardTransmit apdu w.
Arguments readPage {Card} cardTransmit page w.
Arguments writePage {Card} cardTransmit page data w.
Arguments identifyTagType {Card} cardTransmit w.
Arguments formatType2Tag {Card} cardTransmit w.
Arguments writePages {Card} cardTransmit turns tlv i page w.
Arguments writeNDEFToType2 {Card} cardTransmit ndef w.

(** ** The rest of the tools *)

(** The known identifier codes, 0x00 to 0x23, and the search of the code of
    a prefix among them; the table of [getURIPrefix] is only read from code
    to prefix, the search serves to state that it has no prefix twice. *)
Definition knownCodes : list byte :=
  [x00; x01; x02; x03; x04; x05; x06; x07; x08; x09; x0a; x0b;
   x0c; x0d; x0e; x0f; x10; x11; x12; x13; x14; x15; x16; x17;
   x18; x19; x1a; x1b; x1c; x1d; x1e; x1f; x20; x21; x22; x23].

Definition codeOfPrefix (prefix : string) : option byte :=
  find (fun code => String.eqb (URI.getURIPrefix code) prefix) knownCodes.

(** [hex.EncodeToString]: two lower case hexadecimal digits per byte. *)
Definition hexDigit (n : N) : ascii :=
  match String.get (N.to_nat n) "0123456789abcdef" with
  | Some c => c
  | None => "0"%char
  end.

Fixpoint EncodeToString (src : list byte) : string :=
  match src with
  | [] => ""
  | b :: rest =>
      String (hexDigit (N.shiftr (Byte.to_N b) 4))
        (String (hexDigit (N.land (Byte.to_N b) 0x0F)) (EncodeToString rest))
  end.

(** [strings.ToUpper] on a string of ASCII characters, which is what the
    tools give it (the hexadecimal digits of [EncodeToString]): the letters
    a-z become A-Z. *)
Definition upperChar (c : ascii) : ascii :=
  let n := N_of_ascii c in
  if (97 <=? n)%N && (n <=? 122)%N then ascii_of_N (n - 32) else c.

Fixpoint ToUpper (s : string) : string :=
  match s with
  | EmptyString => EmptyString
  | String c s' => String (upperChar c) (ToUpper s')
  end.

(** [strings.Contains]. *)
Fixpoint Contains (s substr : string) : bool :=
  HasPrefix s substr
  || match s with
     | EmptyString => false
     | String _ s' => Contains s' substr
     end.

(** What the writer tool logs for one tag. *)
Inductive Outcome : Type :=
| GetUIDFailed (e : error)                       (* "get UID: ..." *)
| FormatFailed (uidHex : string) (e : error)     (* "format Type 2 tag failed: ..." *)
| WriteNDEFFailed (uidHex : string) (e : error)  (* "write NDEF failed: ..." *)
| WroteURL (uidHex fullURL : string).            (* "Wrote URL to tag: ..." *)

(** The lines of [analyzeLockBytes]. *)
Inductive LockLine : Type :=
| StaticLockBytes (lock0 lock1 : byte) (lockedPages : list string)
| DynamicLockBytes (page : byte) (dynLock : list byte)
| ConfigurationPage (page : byte) (cfg : list byte)
| ConfigurationFields (mirror rfui mirrorPage auth0 : byte)
    (protectionFrom : option nat).  (* [None]: password protection disabled *)

(** The lines of the loop of [readFullTag] over the pages of the data
    area. *)
Inductive PageLine : Type :=
| PageRead (page : byte) (data : list byte)
| PageAlternative (page : byte) (e : error) (altData : list byte)
| PageFailed (page : byte) (e : error) (stopping : bool).

(** The page and the bytes of a line of the loop over the data area. *)
Definition linePage (l : PageLine) : byte :=
  match l with
  | PageRead page _ | PageAlternative page _ _ | PageFailed page _ _ => page
  end.

Definition lineData (l : PageLine) : list byte :=
  match l with
  | PageRead _ data | PageAlternative _ _ data => data
  | PageFailed _ _ _ => []
  end.

(** The pages that [analyzeLockBytes] reads for a tag type: page 2, and for
    the NTAG types the page of the dynamic lock bytes and the page after
    it. *)
Definition lockPages (t : TagType) : list byte :=
  match t with
  | NTAG213 => [x02; x2a; x2b]
  | NTAG215 => [x02; x82; x83]
  | NTAG216 => [x02; xe2; xe3]
  | GenericType2 | Unknown => [x02]
  end.

Section Tools.

Variable Card : Type.
Variable cardTransmit : Card -> list byte -> result (list byte) * Card.

Notation "x <- c ;; k" := (bind c (fun x => k))
  (at level 100, c at next level, right associativity).

(** [getUID]: the pseudo-APDU FF CA 00 00 00. *)
Definition uidAPDU : list byte := [xff; xca; x00; x00; x00].

Definition getUID : World Card -> result (list byte) * World Card :=
  transmit cardTransmit uidAPDU.

(** The APDUs of the second and third method of [readPageAlternative]. *)
Definition read16APDU (page : byte) : list byte := [xff; xb0; x00; page; x10].
Definition readNoLengthAPDU (page : byte) : list byte := [xff; xb0; x00; page].

(** [readPageAlternative]; [None] is its one error, "all read methods
    failed for page ..". *)
Definition readPageAlternative (page : byte)
  : World Card -> option (list byte) * World Card :=
  r <- readPage cardTransmit page ;;
  match r with
  | Ok data => ret (Some data)
  | Err _ =>
      r <- transmit cardTransmit (read16APDU page) ;;
      match r with
      | Ok data =>
          if (4 <=? len data)%nat then ret (Some (slice data 0 4))
          else ret (Some data)
      | Err _ =>
          r <- transmit cardTransmit (readNoLengthAPDU page) ;;
          match r with
          | Ok data => ret (Some data)
          | Err _ => ret None
          end
      end
  end.

(** The function that [main] of the writer tool runs for each tag, without
    its pause between formatting and writing. *)
Definition processTag : World Card -> Outcome * World Card :=
  r <- getUID ;;
  match r with
  | Err e => ret (GetUIDFailed e)
  | Ok uid =>
      let uidHex := ToUpper (EncodeToString uid) in
      err <- formatType2Tag cardTransmit ;;
      match err with
      | Some e => ret (FormatFailed uidHex e)
      | None =>
          let fullURL := ("https://dnd.qrand.me/r/" ++ uidHex)%string in
          let ndef := URI.buildURIRecord fullURL in
          err <- writeNDEFToType2 cardTransmit ndef ;;
          match err with
          | Some e => ret (WriteNDEFFailed uidHex e)
          | None => ret (WroteURL uidHex fullURL)
          end
      end
  end.

(** [analyzeLockBytes]. *)
Definition analyzeLockBytes (tagType : string)
  : World Card -> list LockLine * World Card :=
  pg2 <- readPage cardTransmit x02 ;;
  let static :=
    match pg2 with
    | Ok pg2 =>
        if (len pg2 =? 4)%nat then
          let lock0 := byteAt pg2 2 in
          let lock1 := byteAt pg2 3 in
          [StaticLockBytes lock0 lock1 (Lock.lockedPages lock0 lock1)]
        else []
    | Err _ => []
    end in
  if Contains tagType "NTAG" then
    let dynamicLockPage :=
      if String.eqb tagType "NTAG215" then x82
      else if String.eqb tagType "NTAG216" then xe2
      else x2a in
    dynLock <- readPage cardTransmit dynamicLockPage ;;
    let dynamic :=
      match dynLock with
      | Ok dynLock => [DynamicLockBytes dynamicLockPage dynLock]
      | Err _ => []
      end in
    let configPage := nextPage dynamicLockPage in
    cfg <- readPage cardTransmit configPage ;;
    let configuration :=
      match cfg with
      | Ok cfg =>
          ConfigurationPage configPage cfg
          :: (if (4 <=? len cfg)%nat then
                [ConfigurationFields (byteAt cfg 0) (byteAt cfg 1) (byteAt cfg 2)
                   (byteAt cfg 3)
                   (if Byte.eqb (byteAt cfg 3) xff then None
                    else Some (int_of_byte (byteAt cfg 3)))]
              else [])
      | Err _ => []
      end in
    ret (static ++ dynamic ++ configuration)
  else ret static.

(** The last page that [readFullTag] reads for a tag type. *)
Definition maxPageOf (tagType : string) : byte :=
  if String.eqb tagType "NTAG213" then x2c
  else if String.eqb tagType "NTAG215" then x86
  else if String.eqb tagType "NTAG216" then xe7
  else x10.

(** [for _, b := range data { if b == 0xFE ... }]. *)
Definition hasTerminator (data : list byte) : bool :=
  existsb (fun b => Byte.eqb b xfe) data.

(** The loop of [readFullTag] over the pages of the data area, entered at
    [page] with [turns] turns left, [maxPage - page + 1] of them: the pages
    are read until one holds a byte 0xFE, or reading fails on three pages
    in a row or on one of the last five pages.  It gives the lines printed
    and the bytes gathered in [allNDEFData]. *)
Fixpoint readDataArea (turns : nat) (maxPage page : byte)
    (consecutiveErrors : nat) (allNDEFData : list byte)
  : World Card -> (list PageLine * list byte) * World Card :=
  match turns with
  | O => ret ([], allNDEFData)
  | S turns' =>
      r <- readPage cardTransmit page ;;
      match r with
      | Ok data =>
          let allNDEFData := allNDEFData ++ data in
          if hasTerminator data then ret ([PageRead page data], allNDEFData)
          else
            rest <- readDataArea turns' maxPage (nextPage page) 0 allNDEFData ;;
            ret (PageRead page data :: fst rest, snd rest)
      | Err e =>
          alt <- readPageAlternative page ;;
          match alt with
          | Some altData =>
              let allNDEFData := allNDEFData ++ altData in
              if hasTerminator altData
              then ret ([PageAlternative page e altData], allNDEFData)
              else
                rest <- readDataArea turns' maxPage (nextPage page) 0 allNDEFData ;;
                ret (PageAlternative page e altData :: fst rest, snd rest)
          | None =>
              let consecutiveErrors := consecutiveErrors + 1 in
              if (3 <=? consecutiveErrors)%nat
                 || (Byte.to_N (byte_of_N (Byte.to_N maxPage + 251))
                     <? Byte.to_N page)%N   (* page > maxPage-5, on bytes *)
              then ret ([PageFailed page e true], allNDEFData)
              else
                rest <- readDataArea turns' maxPage (nextPage page)
                          consecutiveErrors allNDEFData ;;
                ret (PageFailed page e false :: fst rest, snd rest)
          end
      end
  end.

(** The loop as [readFullTag] runs it for a tag type: from page 4 to the
    last page of the type. *)
Definition readDataPages (tagType : string)
  : World Card -> (list PageLine * list byte) * World Card :=
  let maxPage := maxPageOf tagType in
  readDataArea (int_of_byte maxPage - 3) maxPage x04 0 [].

(** The world after the first [k] page writes of a buffer, from page 4
    on, each write made in the state the write before it left. *)
Fixpoint afterPageWrites (tlv : list byte) (w : World Card) (k : nat)
  : World Card :=
  match k with
  | O => w
  | S k' =>
      snd (writePage cardTransmit (byte_of_int (4 + k'))
             (slice tlv (4 * k') (4 * k' + 4)) (afterPageWrites tlv w k'))
  end.

End Tools.

Arguments getUID {Card} cardTransmit _.
Arguments readPageAlternative {Card} cardTransmit page _.
Arguments processTag {Card} cardTransmit _.
Arguments analyzeLockBytes {Card} cardTransmit tagType _.
Arguments readDataArea {Card} cardTransmit turns maxPage page consecutiveErrors
  allNDEFData _.
Arguments readDataPages {Card} cardTransmit tagType _.
Arguments afterPageWrites {Card} cardTransmit tlv w k.

(** An APDU is one of the three reads of a page that the tools send. *)
Definition readOf (apdu : list byte) (page : byte) : Prop :=
  apdu = readAPDU page \/ apdu = read16APDU page \/ apdu = readNoLengthAPDU page.

(** The reads that the loop over the data area sends for a line: the
    read of the page; when it failed, the fallback's reads of the same
    page, up to the one that gave the data, or all three. *)
Definition lineReads (l : PageLine) (reads : list (list byte)) : Prop :=
  match l with
  | PageRead page _ => reads = [readAPDU page]
  | PageAlternative page _ _ =>
      exists n,
        1 <= n <= 3
        /\ reads = readAPDU page
                   :: firstn n [readAPDU page; read16APDU page;
                                readNoLengthAPDU page]
  | PageFailed page _ _ =>
      reads = [readAPDU page; readAPDU page; read16APDU page;
               readNoLengthAPDU page]
  end.

(** Between two states of the world only reads were sent: every APDU sent
    since has the instruction byte B0. *)
Definition onlyReads {Card : Type} (w w' : World Card) : Prop :=
  forall apdu, In apdu (sent w') -> In apdu (sent w) \/ byteAt apdu 1 = xb0.

(** What the loop over the data area keeps: the bytes gathered are the bytes
    of the lines, in order, after the bytes gathered before; the lines are
    for consecutive pages from the first page on, at most one per turn; and
    a line with a byte 0xFE, or with a failure that stops the loop, is the
    last line. *)
Definition goodScan (page : byte) (turns : nat) (acc : list byte)
    (lines : list PageLine) (data : list byte) : Prop :=
  data = acc ++ List.concat (map lineData lines)
  /\ map linePage lines
     = map (fun k => Nat.iter k nextPage page) (seq 0 (List.length lines))
  /\ List.length lines <= turns
  /\ (forall pre l post,
         lines = pre ++ l :: post -> post <> [] ->
         hasTerminator (lineData l) = false
         /\ forall p e, l <> PageFailed p e true).

(** * Properties *)

(** ** Bytes, strings and slices *)

Lemma to_N_byte_of_N (n : N) : Byte.to_N (byte_of_N n) = (n mod 256)%N.
Proof.
  unfold byte_of_N.
  destruct (Byte.of_N (n mod 256)) as [b|] eqn:E.
  - now apply Byte.to_of_N.
  - apply Byte.of_N_None_iff in E.
    pose proof (N.mod_upper_bound n 256). lia.
Qed.

Lemma int_of_byte_of_int (n : nat) :
  n <= 255 -> int_of_byte (byte_of_int n) = n.
Proof.
  intros Hn. unfold int_of_byte, byte_of_int.
  rewrite to_N_byte_of_N, N.mod_small by lia.
  apply Nat2N.id.
Qed.

Lemma int_of_byte_le (b : byte) : int_of_byte b <= 255.
Proof.
  unfold int_of_byte. pose proof (Byte.to_N_bounded b). lia.
Qed.

Lemma byte_of_N_to_N (b : byte) : byte_of_N (Byte.to_N b) = b.
Proof.
  unfold byte_of_N.
  rewrite N.mod_small by (pose proof (Byte.to_N_bounded b); lia).
  now rewrite Byte.of_to_N.
Qed.

Lemma HasPrefix_split (p s : string) :
  HasPrefix s p = true -> s = (p ++ string_drop (String.length p) s)%string.
Proof.
  unfold HasPrefix. revert s.
  induction p as [|a p IH]; intros s H; simpl.
  - reflexivity.
  - destruct s as [|b s]; simpl in H; [discriminate|].
    destruct (ascii_dec a b) as [->|]; [|discriminate].
    f_equal. now apply IH.
Qed.

Lemma HasPrefix_append (p t : string) : HasPrefix (p ++ t)%string p = true.
Proof.
  unfold HasPrefix.
  induction p as [|a p IH]; simpl.
  - now destruct t.
  - destruct (ascii_dec a a); [exact IH|congruence].
Qed.

Lemma string_drop_append (p t : string) :
  string_drop (String.length p) (p ++ t)%string = t.
Proof. induction p; simpl; auto. Qed.

Lemma TrimPrefix_append (p t : string) : TrimPrefix (p ++ t)%string p = t.
Proof.
  unfold TrimPrefix. now rewrite HasPrefix_append, string_drop_append.
Qed.

Lemma list_byte_of_string_nil (t : string) :
  list_byte_of_string t = [] -> t = "".
Proof.
  intros H. rewrite <- (string_of_list_byte_of_string t), H. reflexivity.
Qed.

(** ** URI payloads *)

(** What the decoder shows for a payload tagged 0x04. *)
Lemma decodeURI_https (t : string) :
  URI.decodeURI (x04 :: list_byte_of_string t) = Some ("https://" ++ t)%string.
Proof.
  unfold URI.decodeURI, URI.parseURIPayload.
  destruct (list_byte_of_string t) as [|b bs] eqn:E.
  - apply list_byte_of_string_nil in E. subst t. reflexivity.
  - cbn [List.length Nat.ltb Nat.leb URI.shownURI URI.getURIPrefix].
    now rewrite <- E, string_of_list_byte_of_string.
Qed.

(** C1, as the claim states it, fails: a URI that begins with "http://"
    comes back with the scheme "https://". *)
Lemma uri_roundtrip_http_counterexample :
  ~ (forall s : string,
        HasPrefix s "http://" = true \/ HasPrefix s "https://" = true ->
        URI.decodeURI (URI.uriPayload s) = Some s).
Proof.
  intros H.
  specialize (H "http://example.com" (or_introl eq_refl)).
  vm_compute in H. discriminate H.
Qed.

(** C1 (amended): for every URI [s] that begins with "https://", decoding
    the payload that [buildURIRecord] makes for [s] gives [s] again.  For a
    URI "http://" ++ t, where [t] does not itself begin with "https://", the
    encoder strips "http://" and tags [t] with 0x04, and the decoder gives
    "https://" ++ t. *)
Theorem uri_roundtrip_https (s : string) :
  (HasPrefix s "https://" = true ->
   URI.decodeURI (URI.uriPayload s) = Some s) /\
  (HasPrefix s "http://" = true ->
   HasPrefix (string_drop 7 s) "https://" = false ->
   URI.decodeURI (URI.uriPayload s) = Some ("https://" ++ string_drop 7 s)%string).
Proof.
  split; intros H.
  - apply HasPrefix_split in H.
    set (t := string_drop (String.length "https://") s) in H.
    rewrite H. unfold URI.uriPayload.
    replace (TrimPrefix ("https://" ++ t) "http://") with ("https://" ++ t)%string
      by reflexivity.
    rewrite TrimPrefix_append. apply decodeURI_https.
  - intros Hrest. apply HasPrefix_split in H.
    change (String.length "http://") with 7 in H.
    set (t := string_drop 7 s) in *.
    rewrite H at 1. unfold URI.uriPayload.
    rewrite TrimPrefix_append. unfold TrimPrefix at 1. rewrite Hrest.
    apply decodeURI_https.
Qed.

Lemma uri_roundtrip_https_witness :
  URI.decodeURI (URI.uriPayload "https://example.com") = Some "https://example.com" /\
  URI.decodeURI (URI.uriPayload "http://example.com") = Some "https://example.com".
Proof.
  split.
  - apply (proj1 (uri_roundtrip_https "https://example.com")). reflexivity.
  - apply (proj2 (uri_roundtrip_https "http://example.com")); reflexivity.
Defined.

(** ** Record encoding *)

(** C2, as the claim states it, fails: for a URI of 255 characters the
    payload has 256 bytes, and [buildURIRecord] still returns a buffer. *)
Lemma buildURIRecord_oversize_counterexample :
  ~ (forall uri : string,
        255 < len (URI.uriPayload uri) -> URI.buildURIRecord uri = []).
Proof.
  intros H.
  specialize (H (string_of_list_byte (repeat x61 255))).
  assert (L : 255 < len (URI.uriPayload (string_of_list_byte (repeat x61 255))))
    by (vm_compute; lia).
  specialize (H L). vm_compute in H. discriminate H.
Qed.

(** C2 (amended): [buildURIRecord] has no failure: for every URI it returns
    a buffer, made of the header 0xD1, the type length 1, a payload length
    byte, the type 'U' and the payload.  The record is always a short record
    (SR=1); for every payload of at most 255 bytes the payload-length field
    equals the payload's length.  The size limit is enforced later, by the
    TLV writer: for a payload of more than 250 bytes [writeNDEFToType2]
    refuses the record and sends nothing to the card. *)
Theorem buildURIRecord_short_record (uri : string) :
  let payload := URI.uriPayload uri in
  let msg := URI.buildURIRecord uri in
  (exists payloadLen : byte, msg = [xd1; x01; payloadLen; x55] ++ payload) /\
  NDEF.sr (NDEF.decodeHeader (byteAt msg 0)) = true /\
  (len payload <= 255 -> int_of_byte (byteAt msg 2) = len payload) /\
  (250 < len payload ->
   forall (Card : Type) (cardTransmit : Card -> list byte -> result (list byte) * Card)
          (w : World Card),
     writeNDEFToType2 cardTransmit msg w = (Some (NDEFTooLarge (len msg)), w)).
Proof.
  intros payload msg.
  assert (E : msg = [xd1; x01; byte_of_int (len payload); x55] ++ payload)
    by reflexivity.
  split; [exists (byte_of_int (len payload)); exact E|].
  split; [reflexivity|]. split.
  - intros Hle. rewrite E. cbn [app byteAt nth].
    now apply int_of_byte_of_int.
  - intros Hgt Card cardTransmit w. unfold writeNDEFToType2.
    assert (L : len msg = 4 + len payload).
    { rewrite E. unfold len. rewrite length_app. reflexivity. }
    destruct (254 <? len msg)%nat eqn:C; [reflexivity|].
    apply Nat.ltb_ge in C. lia.
Qed.

Lemma buildURIRecord_short_record_witness :
  int_of_byte (byteAt (URI.buildURIRecord "https://example.com") 2) = 12 /\
  writeNDEFToType2 (fun (c : unit) (_ : list byte) => (Ok [x90; x00], c))
    (URI.buildURIRecord (string_of_list_byte (repeat x61 255))) (mkWorld tt [])
  = (Some (NDEFTooLarge 260), mkWorld tt []).
Proof.
  split.
  - apply (proj1 (proj2 (proj2 (buildURIRecord_short_record "https://example.com")))).
    vm_compute. lia.
  - apply (proj2 (proj2 (proj2
             (buildURIRecord_short_record (string_of_list_byte (repeat x61 255)))))).
    vm_compute. lia.
Defined.

(** ** The example message *)

(** C3, as the claim states it, fails: with the payload length byte 0x0B the
    payload ends one byte before the end of "example.com", and the URI shown
    is not "https://example.com". *)
Lemma parse_example_counterexample :
  ~ (exists r : NDEF.RecordReport,
        NDEF.parseNDEFMessage
          ([xd1; x01; x0b; x55; x04] ++ list_byte_of_string "example.com") = [r] /\
        NDEF.recordURI r = Some "https://example.com").
Proof.
  intros [r [H U]]. vm_compute in H.
  injection H as <-. vm_compute in U. discriminate U.
Qed.

(** C3 (amended): decoding the message [0xD1,0x01,0x0B,0x55,0x04] followed
    by "example.com" yields exactly one record with TNF=1, type 'U', MB=1
    and ME=1; its payload is the 11 bytes the length byte declares, 0x04 and
    "example.co", and the URI shown for it is "https://example.co" (the last
    byte of the buffer is not read).  With the length byte 0x0C, which is
    what [buildURIRecord] writes for "https://example.com", the URI shown is
    "https://example.com". *)
Theorem parse_example_message :
  NDEF.parseNDEFMessage
    ([xd1; x01; x0b; x55; x04] ++ list_byte_of_string "example.com")
  = [ {| NDEF.recordNum := 1;
         NDEF.flags := {| NDEF.header := xd1;
                          NDEF.mb := true; NDEF.me := true; NDEF.cf := false;
                          NDEF.sr := true; NDEF.il := false; NDEF.tnf := 1 |};
         NDEF.body :=
           NDEF.Parsed x01 11 x00 [x55] []
             (x04 :: list_byte_of_string "example.co")
             (NDEF.URIPayload
                (URI.FullURI "https://example.co" x04 "https://" "example.co")) |} ]
  /\ map NDEF.recordURI
       (NDEF.parseNDEFMessage
          ([xd1; x01; x0b; x55; x04] ++ list_byte_of_string "example.com"))
     = [Some "https://example.co"]
  /\ URI.buildURIRecord "https://example.com"
     = [xd1; x01; x0c; x55; x04] ++ list_byte_of_string "example.com"
  /\ map NDEF.recordURI
       (NDEF.parseNDEFMessage
          ([xd1; x01; x0c; x55; x04] ++ list_byte_of_string "example.com"))
     = [Some "https://example.com"].
Proof. split; [|split; [|split]]; vm_compute; reflexivity. Qed.

(** ** A record that is built and then parsed *)

(** For every URI whose payload has at most 255 bytes, the message that
    [buildURIRecord] makes is read back by [parseNDEFMessage] as one short
    record of type 'U' with that payload, shown as a URI. *)
Lemma parse_buildURIRecord (uri : string) :
  let payload := URI.uriPayload uri in
  len payload <= 255 ->
  NDEF.parseNDEFMessage (URI.buildURIRecord uri)
  = [ {| NDEF.recordNum := 1;
         NDEF.flags := NDEF.decodeHeader xd1;
         NDEF.body :=
           NDEF.Parsed x01 (N.of_nat (len payload)) x00 [x55] [] payload
             (NDEF.URIPayload (URI.parseURIPayload payload)) |} ].
Proof.
  intros payload Hle.
  assert (Hpos : 0 < len payload) by (unfold payload, URI.uriPayload; cbn; lia).
  set (L := byte_of_int (len payload)).
  assert (HL : Byte.to_N L = N.of_nat (len payload)).
  { unfold L, byte_of_int. rewrite to_N_byte_of_N. apply N.mod_small. lia. }
  set (data := xd1 :: x01 :: L :: x55 :: payload).
  assert (Hlen : len data = S (S (S (S (len payload))))) by reflexivity.
  assert (R : NDEF.parseRecord data 0
              = (NDEF.Parsed x01 (N.of_nat (len payload)) x00 [x55] [] payload
                   (NDEF.URIPayload (URI.parseURIPayload payload)), None)).
  { unfold NDEF.parseRecord. rewrite Hlen.
    change (byteAt data 0) with xd1.
    change (byteAt data (0 + 1)) with x01.
    change (byteAt data (0 + 1 + 1)) with L.
    cbn [NDEF.decodeHeader NDEF.sr NDEF.il NDEF.me Nat.add Nat.leb Nat.ltb
         maskSet negb andb].
    change (maskSet xd1 16) with true. change (maskSet xd1 8) with false.
    change (maskSet xd1 64) with true.
    cbv iota. cbn [andb].
    change (int_of_byte x01) with 1. cbn [Nat.add Nat.ltb Nat.leb].
    rewrite HL.
    destruct (0 <? N.of_nat (len payload))%N eqn:C;
      [|apply N.ltb_ge in C; lia].
    rewrite Nat2N.id.
    assert (Sl : slice data 4 (S (S (S (S (len payload))))) = payload).
    { unfold slice. cbn [Nat.sub skipn data]. rewrite Nat.sub_0_r.
      apply firstn_all. }
    rewrite Sl. change (slice data 3 4) with [x55].
    change (NDEF.viewPayload x01 [x55] payload)
      with (NDEF.URIPayload (URI.parseURIPayload payload)).
    change (match len payload with
            | 0 => false
            | S m' => (len payload <=? m')%nat
            end) with (len payload <? len payload)%nat.
    rewrite Nat.ltb_irrefl. reflexivity. }
  change (NDEF.parseNDEFMessage (URI.buildURIRecord uri))
    with (NDEF.parseNDEFMessage data).
  unfold NDEF.parseNDEFMessage. rewrite Hlen. cbn [NDEF.parseLoop].
  change (0 <? len data)%nat with true. cbv iota.
  rewrite R. reflexivity.
Qed.

(** ** The record loop and the TLV loop never run out of turns *)

Lemma parseRecord_progress (data : list byte) (offset offset' : nat) :
  snd (NDEF.parseRecord data offset) = Some offset' -> offset < offset'.
Proof.
  unfold NDEF.parseRecord.
  repeat match goal with
         | |- context [if ?c then _ else _] => destruct c
         end;
    cbn [snd]; intros H; try discriminate H; injection H as <-; lia.
Qed.

Lemma parseLoop_total (data : list byte) :
  forall fuel offset recordNum,
    len data - offset <= fuel ->
    NDEF.parseLoop fuel data offset recordNum <> None.
Proof.
  induction fuel as [|fuel IH]; intros offset recordNum Hfuel;
    cbn [NDEF.parseLoop];
    destruct (offset <? len data)%nat eqn:C; try discriminate.
  - apply Nat.ltb_lt in C. lia.
  - apply Nat.ltb_lt in C.
    destruct (snd (NDEF.parseRecord data offset)) as [offset'|] eqn:S;
      [|discriminate].
    apply parseRecord_progress in S.
    specialize (IH offset' (Datatypes.S recordNum)).
    destruct (NDEF.parseLoop fuel data offset' (Datatypes.S recordNum));
      [discriminate|]. apply IH. lia.
Qed.

Lemma tlvStep_progress (data : list byte) (offset : nat) (f : bool)
    (e : TLV.TLVEntry) (offset' : nat) (f' : bool) :
  TLV.tlvStep data offset f = TLV.Continue e offset' f' -> offset < offset'.
Proof.
  unfold TLV.tlvStep.
  destruct (byteAt data offset); cbv iota;
    repeat match goal with
           | |- context [if ?c then _ else _] => destruct c
           end;
    intros H; try discriminate H; injection H as <- <- <-; lia.
Qed.

Lemma tlvLoop_fuel (data : list byte) (startPage : Z) :
  forall fuel fuel' offset f,
    len data - offset <= fuel -> len data - offset <= fuel' ->
    TLV.tlvLoop fuel data startPage offset f
    = TLV.tlvLoop fuel' data startPage offset f
    /\ TLV.tlvLoop fuel data startPage offset f <> None.
Proof.
  induction fuel as [|fuel IH]; intros fuel' offset f H H';
    destruct fuel' as [|fuel']; cbn [TLV.tlvLoop];
    destruct (offset <? len data)%nat eqn:C;
    try (apply Nat.ltb_lt in C; lia);
    try (split; [reflexivity|discriminate]).
  destruct (TLV.tlvStep data offset f) as [e offset' f'|e] eqn:S;
    [|split; [reflexivity|discriminate]].
  apply tlvStep_progress in S. apply Nat.ltb_lt in C.
  destruct (IH fuel' offset' f') as [E N]; [lia|lia|].
  rewrite <- E. split; [reflexivity|].
  destruct (TLV.tlvLoop fuel data startPage offset' f'); [discriminate|easy].
Qed.

(** With enough turns the loop gives the lines of [tlvFrom]. *)
Lemma tlvLoop_total (data : list byte) (startPage : Z) (fuel offset : nat)
    (f : bool) :
  len data - offset <= fuel ->
  TLV.tlvLoop fuel data startPage offset f
  = Some (TLV.tlvFrom data startPage offset f).
Proof.
  intros H. unfold TLV.tlvFrom.
  destruct (tlvLoop_fuel data startPage fuel (len data - offset) offset f)
    as [E N]; [lia|lia|].
  rewrite <- E.
  destruct (TLV.tlvLoop fuel data startPage offset f); [reflexivity|easy].
Qed.

(** The two equations of the loop: past the end of the buffer it stops, and
    inside the buffer it makes one step. *)
Lemma tlvFrom_end (data : list byte) (startPage : Z) (offset : nat) (f : bool) :
  len data <= offset ->
  TLV.tlvFrom data startPage offset f = if f then [] else [TLV.NoNDEFFound].
Proof.
  intros H. unfold TLV.tlvFrom.
  replace (len data - offset) with 0 by lia. cbn [TLV.tlvLoop].
  destruct (offset <? len data)%nat eqn:C; [apply Nat.ltb_lt in C; lia|].
  reflexivity.
Qed.

Lemma tlvFrom_step (data : list byte) (startPage : Z) (offset : nat) (f : bool) :
  offset < len data ->
  TLV.tlvFrom data startPage offset f
  = match TLV.tlvStep data offset f with
    | TLV.Continue e offset' f' =>
        TLV.Entry (startPage + Z.of_nat (offset / 4)) (offset mod 4)
                  (byteAt data offset) e
        :: TLV.tlvFrom data startPage offset' f'
    | TLV.Return e =>
        [TLV.Entry (startPage + Z.of_nat (offset / 4)) (offset mod 4)
                   (byteAt data offset) e]
    end.
Proof.
  intros H. unfold TLV.tlvFrom at 1.
  destruct (len data - offset) as [|fuel] eqn:F; [lia|].
  cbn [TLV.tlvLoop].
  destruct (offset <? len data)%nat eqn:C; [|apply Nat.ltb_ge in C; lia].
  destruct (TLV.tlvStep data offset f) as [e offset' f'|e] eqn:S; [|reflexivity].
  apply tlvStep_progress in S.
  rewrite (tlvLoop_total data startPage fuel offset' f') by lia.
  reflexivity.
Qed.

(** The step at a type byte that is none of 0x00, 0x03 and 0xFE. *)
Lemma tlvStep_other (data : list byte) (offset : nat) (f : bool) :
  byteAt data offset <> x00 -> byteAt data offset <> x03 ->
  byteAt data offset <> xfe ->
  TLV.tlvStep data offset f
  = if (1 <=? Byte.to_N (byteAt data offset))%N
       && (Byte.to_N (byteAt data offset) <=? 0xFD)%N
    then
      if (offset + 1 <? len data)%nat then
        TLV.Continue (TLV.Proprietary (Some (byteAt data (offset + 1))))
          (offset + 2 + int_of_byte (byteAt data (offset + 1))) f
      else TLV.Continue (TLV.Proprietary None) (offset + 1) f
    else TLV.Continue TLV.Invalid (offset + 1) f.
Proof.
  intros H0 H3 Hfe. unfold TLV.tlvStep.
  destruct (byteAt data offset); try reflexivity; congruence.
Qed.

(** ** TLV decoding *)

(** C6: the analysis of [0x03,0x05,b1,b2,b3,b4,b5,0xFE,0x99], for all bytes
    b1..b5, prints exactly one NDEF message entry, whose value is
    [b1,b2,b3,b4,b5], and then the terminator, where it stops: the byte 0x99
    after the terminator gives no entry. *)
Theorem analyze_stops_at_terminator (b1 b2 b3 b4 b5 : byte) (startPage : Z) :
  TLV.analyzeNDEFStructure [x03; x05; b1; b2; b3; b4; b5; xfe; x99] startPage
  = [ TLV.Entry startPage 0 x03
        (TLV.NDEFMessage x05 [b1; b2; b3; b4; b5]
           (NDEF.parseNDEFMessage [b1; b2; b3; b4; b5]));
      TLV.Entry (startPage + 1) 3 xfe (TLV.Terminator true) ].
Proof.
  unfold TLV.analyzeNDEFStructure. cbn [len List.length Nat.eqb].
  rewrite tlvFrom_step by (cbn; lia).
  change (TLV.tlvStep [x03; x05; b1; b2; b3; b4; b5; xfe; x99] 0 false)
    with (TLV.Continue
            (TLV.NDEFMessage x05 [b1; b2; b3; b4; b5]
               (NDEF.parseNDEFMessage [b1; b2; b3; b4; b5])) 7 true).
  cbv iota. rewrite tlvFrom_step by (cbn; lia).
  change (TLV.tlvStep [x03; x05; b1; b2; b3; b4; b5; xfe; x99] 7 true)
    with (TLV.Return (TLV.Terminator true)).
  cbv iota.
  change (Z.of_nat (0 / 4)) with 0%Z. change (Z.of_nat (7 / 4)) with 1%Z.
  rewrite Z.add_0_r. reflexivity.
Qed.

(** C10: where the analysis reads the type byte 0x03 followed by the length
    byte 0x00, it prints an empty NDEF message entry, moves 2 bytes forward,
    past the type and the length, and goes on with the TLV entries from
    there, now with an NDEF TLV found. *)
Theorem empty_ndef_tlv_continues (data : list byte) (startPage : Z)
    (offset : nat) (foundNDEF : bool) :
  offset + 1 < len data ->
  byteAt data offset = x03 ->
  byteAt data (offset + 1) = x00 ->
  TLV.tlvStep data offset foundNDEF = TLV.Continue TLV.NDEFEmpty (offset + 2) true
  /\ TLV.tlvFrom data startPage offset foundNDEF
     = TLV.Entry (startPage + Z.of_nat (offset / 4)) (offset mod 4) x03 TLV.NDEFEmpty
       :: TLV.tlvFrom data startPage (offset + 2) true.
Proof.
  intros Hlen Ht Hl.
  assert (S : TLV.tlvStep data offset foundNDEF
              = TLV.Continue TLV.NDEFEmpty (offset + 2) true).
  { unfold TLV.tlvStep. rewrite Ht, Hl. cbv iota.
    destruct (len data <=? offset + 1)%nat eqn:C;
      [apply Nat.leb_le in C; lia|reflexivity]. }
  split; [exact S|].
  rewrite tlvFrom_step by lia. rewrite S, Ht. reflexivity.
Qed.

Lemma empty_ndef_tlv_continues_witness :
  TLV.analyzeNDEFStructure [x03; x00; x00; xfe] 4
  = TLV.Entry 4 0 x03 TLV.NDEFEmpty :: TLV.tlvFrom [x03; x00; x00; xfe] 4 2 true.
Proof.
  apply (proj2 (empty_ndef_tlv_continues [x03; x00; x00; xfe] 4 0 false
                  ltac:(cbn; lia) ltac:(reflexivity) ltac:(reflexivity))).
Defined.

(** C4, as the claim states it, fails: in [0x01,0x05,0xAA] the proprietary
    block declares 5 value bytes and only one is there, and no line of the
    analysis is a diagnostic that carries the byte that is there. *)
Lemma proprietary_truncation_counterexample :
  ~ (exists r : TLV.Report,
        In r (TLV.analyzeNDEFStructure [x01; x05; xaa] 4) /\
        TLV.carriesTruncatedValue r [xaa]).
Proof.
  intros [r [H C]]. vm_compute in H.
  destruct H as [<-|[<-|[]]]; exact C.
Qed.

(** C4 (amended): where the analysis reads a type byte in 0x01-0xFD other
    than 0x03, it prints a proprietary entry.  When a length byte follows,
    the entry shows that length and no value bytes, and the analysis goes on
    2 + length bytes further; when the declared length reaches beyond the
    end of the buffer, nothing more is read: no diagnostic of a truncated
    block and no further entry is printed, only the closing line of a data
    area without NDEF TLV if none was found before.  When no length byte
    follows, the entry shows no length and the analysis ends in the same
    way. *)
Theorem proprietary_tlv_skipped (data : list byte) (startPage : Z)
    (offset : nat) (foundNDEF : bool) :
  offset < len data ->
  (1 <= Byte.to_N (byteAt data offset) <= 0xFD)%N ->
  byteAt data offset <> x03 ->
  let here := TLV.Entry (startPage + Z.of_nat (offset / 4)) (offset mod 4)
                        (byteAt data offset) in
  let length := byteAt data (offset + 1) in
  (offset + 1 < len data ->
   TLV.tlvFrom data startPage offset foundNDEF
   = here (TLV.Proprietary (Some length))
     :: TLV.tlvFrom data startPage (offset + 2 + int_of_byte length) foundNDEF)
  /\ (offset + 1 < len data ->
      len data < offset + 2 + int_of_byte length ->
      TLV.tlvFrom data startPage offset foundNDEF
      = here (TLV.Proprietary (Some length))
        :: (if foundNDEF then [] else [TLV.NoNDEFFound]))
  /\ (len data <= offset + 1 ->
      TLV.tlvFrom data startPage offset foundNDEF
      = here (TLV.Proprietary None)
        :: (if foundNDEF then [] else [TLV.NoNDEFFound])).
Proof.
  intros Hlt [Hlo Hhi] H3 here length.
  assert (S : TLV.tlvStep data offset foundNDEF
              = if (offset + 1 <? len data)%nat then
                  TLV.Continue (TLV.Proprietary (Some length))
                    (offset + 2 + int_of_byte length) foundNDEF
                else TLV.Continue (TLV.Proprietary None) (offset + 1) foundNDEF).
  { rewrite tlvStep_other.
    - apply N.leb_le in Hlo. apply N.leb_le in Hhi.
      rewrite Hlo, Hhi. reflexivity.
    - intros E. rewrite E in Hlo. cbn in Hlo. lia.
    - exact H3.
    - intros E. rewrite E in Hhi. cbn in Hhi. lia. }
  assert (Step1 : offset + 1 < len data ->
                  TLV.tlvFrom data startPage offset foundNDEF
                  = here (TLV.Proprietary (Some length))
                    :: TLV.tlvFrom data startPage
                         (offset + 2 + int_of_byte length) foundNDEF).
  { intros H1. rewrite tlvFrom_step by exact Hlt. rewrite S.
    apply Nat.ltb_lt in H1. rewrite H1. reflexivity. }
  split; [exact Step1|]. split.
  - intros H1 Hover. rewrite (Step1 H1). f_equal.
    apply tlvFrom_end. lia.
  - intros Hno. rewrite tlvFrom_step by exact Hlt. rewrite S.
    destruct (offset + 1 <? len data)%nat eqn:C;
      [apply Nat.ltb_lt in C; lia|].
    f_equal. apply tlvFrom_end. lia.
Qed.

Lemma proprietary_tlv_skipped_witness :
  TLV.analyzeNDEFStructure [x01; x05; xaa] 4
  = [TLV.Entry 4 0 x01 (TLV.Proprietary (Some x05)); TLV.NoNDEFFound]
  /\ TLV.analyzeNDEFStructure [x01; x01; xaa; xfd] 4
     = TLV.Entry 4 0 x01 (TLV.Proprietary (Some x01))
       :: TLV.tlvFrom [x01; x01; xaa; xfd] 4 3 false
  /\ TLV.tlvFrom [x01; x01; xaa; xfd] 4 3 false
     = [TLV.Entry 4 3 xfd (TLV.Proprietary None); TLV.NoNDEFFound].
Proof.
  split; [|split].
  - apply (proj1 (proj2 (proprietary_tlv_skipped [x01; x05; xaa] 4 0 false
                           ltac:(cbn; lia) ltac:(cbn; lia) ltac:(discriminate)))).
    + cbn. lia.
    + cbn. lia.
  - apply (proj1 (proprietary_tlv_skipped [x01; x01; xaa; xfd] 4 0 false
                    ltac:(cbn; lia) ltac:(cbn; lia) ltac:(discriminate))).
    cbn. lia.
  - apply (proj2 (proj2 (proprietary_tlv_skipped [x01; x01; xaa; xfd] 4 3 false
                           ltac:(cbn; lia) ltac:(cbn; lia) ltac:(discriminate)))).
    cbn. lia.
Defined.

(** ** Static lock bytes *)

Lemma Sprintf_d_inj (a b : nat) : Lock.Sprintf_d a = Lock.Sprintf_d b -> a = b.
Proof.
  unfold Lock.Sprintf_d. intros H.
  apply (f_equal DecimalString.NilEmpty.uint_of_string) in H.
  rewrite !DecimalString.NilEmpty.usu in H.
  injection H as H.
  apply (f_equal Nat.of_uint) in H.
  now rewrite !DecimalNat.Unsigned.of_to in H.
Qed.

(** The loop that appends under a test is a filter followed by a map. *)
Lemma fold_append_filter {A B : Type} (p : A -> bool) (g : A -> B) (l : list A) :
  forall acc : list B,
    fold_left (fun acc i => if p i then acc ++ [g i] else acc) l acc
    = acc ++ map g (filter p l).
Proof.
  induction l as [|a l IH]; intros acc; cbn [fold_left filter].
  - now rewrite app_nil_r.
  - rewrite IH. destruct (p a); cbn [map]; [|reflexivity].
    now rewrite <- app_assoc.
Qed.

Lemma land_1_testbit (x : N) : (N.land x 1 =? 1)%N = N.testbit x 0.
Proof. destruct x as [|[p|p|]]; reflexivity. Qed.

Lemma shifted_bit (a : N) (i : nat) :
  (N.land (N.shiftr a (N.of_nat i)) 1 =? 1)%N = N.testbit a (N.of_nat i).
Proof.
  rewrite land_1_testbit, N.shiftr_spec'. reflexivity.
Qed.

Lemma byte_high_bits (b : byte) (n : N) : (8 <= n)%N -> N.testbit (Byte.to_N b) n = false.
Proof.
  intros H. pose proof (Byte.to_N_bounded b) as Hb.
  destruct (N.eq_dec (Byte.to_N b) 0) as [->|Hnz]; [apply N.bits_0|].
  apply N.bits_above_log2.
  apply N.lt_le_trans with (m := 8%N); [|exact H].
  apply N.log2_lt_pow2; [lia|]. change (2 ^ 8)%N with 256%N. lia.
Qed.

(** The test of the loop reads bit [i] of the 16-bit field. *)
Lemma bitSet_lockField (lock0 lock1 : byte) (i : nat) :
  Lock.bitSet lock0 lock1 i
  = N.testbit (Lock.lockField lock0 lock1) (N.of_nat i).
Proof.
  unfold Lock.bitSet, Lock.lockField.
  rewrite N.lor_spec.
  destruct (i <? 8)%nat eqn:C.
  - apply Nat.ltb_lt in C.
    rewrite shifted_bit, N.shiftl_spec_low by lia.
    now rewrite orb_false_r.
  - apply Nat.ltb_ge in C.
    rewrite shifted_bit, (byte_high_bits lock0), N.shiftl_spec_high' by lia.
    cbn [orb]. f_equal. lia.
Qed.

Lemma lockedPages_filter (lock0 lock1 : byte) :
  Lock.lockedPages lock0 lock1
  = map (fun i => Lock.Sprintf_d (3 + i))
        (filter (Lock.bitSet lock0 lock1) (seq 0 16)).
Proof.
  unfold Lock.lockedPages.
  apply (fold_append_filter (Lock.bitSet lock0 lock1)
           (fun i => Lock.Sprintf_d (3 + i)) (seq 0 16) []).
Qed.

(** C8: for every pair of static lock bytes, page 3+i (i = 0..15) is in the
    list of locked pages exactly when bit i of the 16-bit field with lock0
    as low byte and lock1 as high byte is set, and no other page is in the
    list; for lock0 = 0x01 and lock1 = 0x00 the list is page 3 alone. *)
Theorem static_lock_decode :
  (forall (lock0 lock1 : byte) (i : nat),
      i < 16 ->
      (In (Lock.Sprintf_d (3 + i)) (Lock.lockedPages lock0 lock1)
       <-> N.testbit (Lock.lockField lock0 lock1) (N.of_nat i) = true))
  /\ (forall (lock0 lock1 : byte) (page : string),
         In page (Lock.lockedPages lock0 lock1) ->
         exists i, i < 16 /\ page = Lock.Sprintf_d (3 + i))
  /\ Lock.lockedPages x01 x00 = ["3"].
Proof.
  split; [|split].
  - intros lock0 lock1 i Hi.
    rewrite lockedPages_filter, in_map_iff, <- bitSet_lockField.
    split.
    + intros [j [E Hj]]. apply Sprintf_d_inj in E.
      apply filter_In in Hj. replace i with j by lia. tauto.
    + intros Hb. exists i. split; [reflexivity|].
      apply filter_In. split; [apply in_seq; lia|exact Hb].
  - intros lock0 lock1 page H.
    rewrite lockedPages_filter, in_map_iff in H.
    destruct H as [j [E Hj]]. apply filter_In in Hj.
    destruct Hj as [Hj _]. apply in_seq in Hj.
    exists j. split; [lia|now symmetry].
  - reflexivity.
Qed.

Lemma static_lock_decode_witness :
  In "18" (Lock.lockedPages x81 x80)
  /\ (exists i, i < 16 /\ "10" = Lock.Sprintf_d (3 + i)).
Proof.
  destruct static_lock_decode as [H1 [H2 _]].
  split.
  - apply (proj2 (H1 x81 x80 15 ltac:(lia))). reflexivity.
  - apply (H2 x81 x80 "10"). vm_compute. tauto.
Defined.

(** ** The reader *)

Section ReaderProperties.

Variable Card : Type.
Variable cardTransmit : Card -> list byte -> result (list byte) * Card.

(** Every call of [transmit] sends its APDU, and nothing else. *)
Lemma transmit_sent (apdu : list byte) (w : World Card) :
  sent (snd (transmit cardTransmit apdu w)) = sent w ++ [apdu].
Proof.
  unfold transmit, bind, Transmit.
  destruct (cardTransmit (card w) apdu) as [[resp|e] card'];
    [|reflexivity].
  destruct (len resp <? 2)%nat; [reflexivity|].
  destruct (negb _ || negb _); reflexivity.
Qed.

Lemma readPage_sent (page : byte) (w : World Card) :
  sent (snd (readPage cardTransmit page w)) = sent w ++ [readAPDU page].
Proof. apply transmit_sent. Qed.

Lemma writePage_sent (page : byte) (data : list byte) (w : World Card) :
  len data = 4 ->
  sent (snd (writePage cardTransmit page data w))
  = sent w ++ [writeAPDU page data].
Proof.
  intros H. unfold writePage, bind. rewrite H. cbn [Nat.eqb negb].
  pose proof (transmit_sent (writeAPDU page data) w) as T.
  destruct (transmit cardTransmit (writeAPDU page data) w) as [[resp|e] w'];
    exact T.
Qed.

(** C7: the tag type probe, over the results of its reads of page 0, of
    page 0x2C and of page 0x86, each made in the state the read before it
    left.  If the read of page 0 fails the answer is "unknown"; if it
    succeeds with a manufacturer byte other than 0x04 the answer is
    "Type2-compatible"; with manufacturer byte 0x04 the answer is
    "NTAG213" if the read of page 0x2C fails, "NTAG215" if that read
    succeeds and the read of page 0x86 fails, and "NTAG216" if both
    succeed.  The only APDUs sent are the reads of these pages, in this
    order, up to the one that decides. *)
Theorem identifyTagType_classification (w : World Card) :
  let r0 := readPage cardTransmit x00 w in
  let r1 := readPage cardTransmit x2c (snd r0) in
  let r2 := readPage cardTransmit x86 (snd r1) in
  (isErr (fst r0) = true ->
   identifyTagType cardTransmit w = (tagTypeName Unknown, snd r0))
  /\ (forall m rest, fst r0 = Ok (m :: rest) -> m <> x04 ->
      identifyTagType cardTransmit w = (tagTypeName GenericType2, snd r0))
  /\ (forall rest, fst r0 = Ok (x04 :: rest) -> isErr (fst r1) = true ->
      identifyTagType cardTransmit w = (tagTypeName NTAG213, snd r1))
  /\ (forall rest, fst r0 = Ok (x04 :: rest) ->
      isErr (fst r1) = false -> isErr (fst r2) = true ->
      identifyTagType cardTransmit w = (tagTypeName NTAG215, snd r2))
  /\ (forall rest, fst r0 = Ok (x04 :: rest) ->
      isErr (fst r1) = false -> isErr (fst r2) = false ->
      identifyTagType cardTransmit w = (tagTypeName NTAG216, snd r2))
  /\ sent (snd r0) = sent w ++ [readAPDU x00]
  /\ sent (snd r1) = sent w ++ [readAPDU x00; readAPDU x2c]
  /\ sent (snd r2) = sent w ++ [readAPDU x00; readAPDU x2c; readAPDU x86].
Proof.
  intros r0 r1 r2.
  assert (S0 : sent (snd r0) = sent w ++ [readAPDU x00])
    by apply readPage_sent.
  assert (S1 : sent (snd r1) = sent w ++ [readAPDU x00; readAPDU x2c]).
  { unfold r1. rewrite readPage_sent, S0, <- app_assoc. reflexivity. }
  assert (S2 : sent (snd r2)
               = sent w ++ [readAPDU x00; readAPDU x2c; readAPDU x86]).
  { unfold r2. rewrite readPage_sent, S1, <- app_assoc. reflexivity. }
  unfold identifyTagType, bind.
  subst r2 r1 r0.
  destruct (readPage cardTransmit x00 w) as [p0 w1]. cbn [fst snd] in *.
  destruct (readPage cardTransmit x2c w1) as [p1 w2] eqn:R1.
  cbn [fst snd] in *.
  destruct (readPage cardTransmit x86 w2) as [p2 w3] eqn:R2.
  cbn [fst snd] in *.
  split; [|split; [|split; [|split; [|split; [|auto]]]]].
  - intros E. destruct p0; [discriminate E|reflexivity].
  - intros m rest -> Hm. cbn [len List.length Nat.leb byteAt nth].
    destruct m; try reflexivity. congruence.
  - intros rest -> E. cbn [len List.length Nat.leb byteAt nth].
    rewrite R1. destruct p1; [discriminate E|reflexivity].
  - intros rest -> E1 E2. cbn [len List.length Nat.leb byteAt nth].
    rewrite R1. destruct p1; [|discriminate E1].
    rewrite R2. destruct p2; [discriminate E2|reflexivity].
  - intros rest -> E1 E2. cbn [len List.length Nat.leb byteAt nth].
    rewrite R1. destruct p1; [|discriminate E1].
    rewrite R2. destruct p2; [|discriminate E2]. reflexivity.
Qed.

(** C9: the formatter, over the results of its three page writes, each
    made in the state the write before it left: the lock bytes zeroed at
    page 2, the capability container E1 10 3F 00 at page 3, and the empty
    data area 00 00 00 FE at page 4.  The first write that fails ends the
    formatting with its error: the state returned is the state right after
    that write, so no later write is sent and no earlier one is taken
    back.  The APDUs sent are these writes, in this order. *)
Theorem formatType2Tag_plan (w : World Card) :
  let s1 := writePage cardTransmit x02 [x00; x00; x00; x00] w in
  let s2 := writePage cardTransmit x03 [xe1; x10; x3f; x00] (snd s1) in
  let s3 := writePage cardTransmit x04 [x00; x00; x00; xfe] (snd s2) in
  formatType2Tag cardTransmit w
  = match fst s1 with
    | Some e => (Some (Wrapped "write lock bytes" e), snd s1)
    | None =>
        match fst s2 with
        | Some e => (Some (Wrapped "write capability container" e), snd s2)
        | None =>
            match fst s3 with
            | Some e => (Some (Wrapped "write initial NDEF area" e), snd s3)
            | None => (None, snd s3)
            end
        end
    end
  /\ sent (snd s1) = sent w ++ [writeAPDU x02 [x00; x00; x00; x00]]
  /\ sent (snd s2) = sent w ++ [writeAPDU x02 [x00; x00; x00; x00];
                                writeAPDU x03 [xe1; x10; x3f; x00]]
  /\ sent (snd s3) = sent w ++ [writeAPDU x02 [x00; x00; x00; x00];
                                writeAPDU x03 [xe1; x10; x3f; x00];
                                writeAPDU x04 [x00; x00; x00; xfe]].
Proof.
  intros s1 s2 s3.
  assert (S1 : sent (snd s1) = sent w ++ [writeAPDU x02 [x00; x00; x00; x00]])
    by (apply writePage_sent; reflexivity).
  assert (S2 : sent (snd s2)
               = sent w ++ [writeAPDU x02 [x00; x00; x00; x00];
                            writeAPDU x03 [xe1; x10; x3f; x00]]).
  { unfold s2. rewrite writePage_sent, S1, <- app_assoc by reflexivity.
    reflexivity. }
  assert (S3 : sent (snd s3)
               = sent w ++ [writeAPDU x02 [x00; x00; x00; x00];
                            writeAPDU x03 [xe1; x10; x3f; x00];
                            writeAPDU x04 [x00; x00; x00; xfe]]).
  { unfold s3. rewrite writePage_sent, S2, <- app_assoc by reflexivity.
    reflexivity. }
  split; [|auto].
  unfold formatType2Tag, bind, lockBytes, cc, clearData.
  subst s3 s2 s1.
  destruct (writePage cardTransmit x02 [x00; x00; x00; x00] w) as [[e1|] w1];
    cbn [fst snd]; [reflexivity|].
  destruct (writePage cardTransmit x03 [xe1; x10; x3f; x00] w1) as [[e2|] w2]
    eqn:W2; cbn [fst snd]; [reflexivity|].
  destruct (writePage cardTransmit x04 [x00; x00; x00; xfe] w2) as [[e3|] w3]
    eqn:W3; reflexivity.
Qed.

End ReaderProperties.

Lemma identifyTagType_classification_witness :
  identifyTagType scriptedCard (mkWorld [Err (TransportError 1)] [])
  = ("unknown", mkWorld [] [readAPDU x00])
  /\ identifyTagType scriptedCard (mkWorld [Ok [x1d; x00; x00; x00; x90; x00]] [])
     = ("Type2-compatible", mkWorld [] [readAPDU x00])
  /\ identifyTagType scriptedCard
       (mkWorld [Ok [x04; x00; x00; x00; x90; x00]; Err (TransportError 1)] [])
     = ("NTAG213", mkWorld [] [readAPDU x00; readAPDU x2c])
  /\ identifyTagType scriptedCard
       (mkWorld [Ok [x04; x00; x00; x00; x90; x00];
                 Ok [x00; x00; x00; x00; x90; x00];
                 Ok [x6a; x82]] [])
     = ("NTAG215", mkWorld [] [readAPDU x00; readAPDU x2c; readAPDU x86])
  /\ identifyTagType scriptedCard
       (mkWorld [Ok [x04; x00; x00; x00; x90; x00];
                 Ok [x00; x00; x00; x00; x90; x00];
                 Ok [x00; x00; x00; x00; x90; x00]] [])
     = ("NTAG216", mkWorld [] [readAPDU x00; readAPDU x2c; readAPDU x86]).
Proof.
  split; [|split; [|split; [|split]]].
  - apply (proj1 (identifyTagType_classification _ scriptedCard
                    (mkWorld [Err (TransportError 1)] []))).
    reflexivity.
  - apply (proj1 (proj2 (identifyTagType_classification _ scriptedCard
                           (mkWorld [Ok [x1d; x00; x00; x00; x90; x00]] [])))
             x1d [x00; x00; x00]).
    + reflexivity.
    + discriminate.
  - apply (proj1 (proj2 (proj2 (identifyTagType_classification _ scriptedCard
             (mkWorld [Ok [x04; x00; x00; x00; x90; x00];
                       Err (TransportError 1)] []))))
             [x00; x00; x00]).
    + reflexivity.
    + reflexivity.
  - apply (proj1 (proj2 (proj2 (proj2 (identifyTagType_classification _ scriptedCard
             (mkWorld [Ok [x04; x00; x00; x00; x90; x00];
                       Ok [x00; x00; x00; x00; x90; x00];
                       Ok [x6a; x82]] [])))))
             [x00; x00; x00]).
    + reflexivity.
    + reflexivity.
    + reflexivity.
  - apply (proj1 (proj2 (proj2 (proj2 (proj2 (identifyTagType_classification _
             scriptedCard
             (mkWorld [Ok [x04; x00; x00; x00; x90; x00];
                       Ok [x00; x00; x00; x00; x90; x00];
                       Ok [x00; x00; x00; x00; x90; x00]] []))))))
             [x00; x00; x00]).
    + reflexivity.
    + reflexivity.
    + reflexivity.
Defined.

(** ** The TLV writer *)

Lemma firstn_plus {A : Type} (n m : nat) (l : list A) :
  firstn (n + m) l = firstn n l ++ firstn m (skipn n l).
Proof.
  revert l. induction n as [|n IH]; intros l; [reflexivity|].
  destruct l as [|a l]; cbn [Nat.add firstn skipn app].
  - now rewrite firstn_nil.
  - now rewrite IH.
Qed.

(** The pages of a buffer, joined, are the buffer. *)
Lemma pages_concat (m : nat) (l : list byte) :
  4 * m <= len l ->
  List.concat (map (fun k => slice l (4 * k) (4 * k + 4)) (seq 0 m))
  = firstn (4 * m) l.
Proof.
  induction m as [|m IH]; intros H; [reflexivity|].
  rewrite seq_S, map_app, concat_app, IH by lia.
  cbn [map List.concat Nat.add]. rewrite app_nil_r. unfold slice.
  replace (4 * m + 4 - 4 * m) with 4 by lia.
  replace (4 * S m) with (4 * m + 4) by lia.
  now rewrite firstn_plus.
Qed.

Lemma slice_length (l : list byte) (a b : nat) :
  a <= b -> b <= len l -> len (slice l a b) = b - a.
Proof.
  intros Hab Hb. unfold slice, len in *.
  rewrite length_firstn, length_skipn. lia.
Qed.

(** The shape of the buffer that the writer builds. *)
Lemma ndefTLV_shape (ndef : list byte) :
  let tlv := ndefTLV ndef in
  let pad := len tlv - (len ndef + 3) in
  tlv = [x03; byte_of_int (len ndef)] ++ ndef ++ [xfe] ++ repeat x00 pad
  /\ pad < 4
  /\ len tlv = 4 * (len tlv / 4).
Proof.
  intros tlv pad. subst pad tlv. unfold ndefTLV.
  set (body := ([x03; byte_of_int (len ndef)] ++ ndef) ++ [xfe]).
  assert (Lb : len body = len ndef + 3).
  { unfold body, len. rewrite !length_app. cbn [List.length]. lia. }
  set (pad := (4 - len body mod 4) mod 4).
  assert (Hm : len body mod 4 < 4) by (apply Nat.mod_upper_bound; lia).
  assert (Hp : pad < 4) by (apply Nat.mod_upper_bound; lia).
  assert (Hd : (len body + pad) mod 4 = 0).
  { unfold pad.
    destruct (Nat.eq_dec (len body mod 4) 0) as [E|E].
    - rewrite E. cbn. rewrite Nat.add_0_r. exact E.
    - rewrite (Nat.mod_small (4 - len body mod 4) 4) by lia.
      rewrite (Nat.div_mod_eq (len body) 4) at 1.
      replace (4 * (len body / 4) + len body mod 4 + (4 - len body mod 4))
        with (4 + (len body / 4) * 4) by lia.
      rewrite Nat.Div0.mod_add. reflexivity. }
  assert (Hfull : len (body ++ repeat x00 pad) = len body + pad).
  { unfold len. now rewrite length_app, repeat_length. }
  assert (Heq : (if (0 <? pad)%nat then body ++ repeat x00 pad else body)
                = body ++ repeat x00 pad).
  { destruct (0 <? pad)%nat eqn:C; [reflexivity|].
    apply Nat.ltb_ge in C. replace pad with 0 by lia.
    cbn [repeat]. now rewrite app_nil_r. }
  rewrite Heq, Hfull, Lb.
  replace (len ndef + 3 + pad - (len ndef + 3)) with pad by lia.
  split; [|split].
  - unfold body. cbn [app]. rewrite <- !app_assoc. reflexivity.
  - exact Hp.
  - rewrite <- Lb.
    pose proof (Nat.div_mod_eq (len body + pad) 4) as D. lia.
Qed.

Lemma iter_nextPage (k : nat) (page : byte) :
  Nat.iter k nextPage page = byte_of_N (Byte.to_N page + N.of_nat k).
Proof.
  induction k as [|k IH].
  - change (Nat.iter 0 nextPage page) with page.
    change (N.of_nat 0) with 0%N. now rewrite N.add_0_r, byte_of_N_to_N.
  - rewrite Nat.iter_succ, IH. unfold nextPage.
    rewrite to_N_byte_of_N. unfold byte_of_N.
    rewrite N.Div0.add_mod_idemp_l.
    replace (Byte.to_N page + N.of_nat k + 1)%N
      with (Byte.to_N page + N.of_nat (S k))%N by lia.
    reflexivity.
Qed.

Section WriterProperties.

Variable Card : Type.
Variable cardTransmit : Card -> list byte -> result (list byte) * Card.

(** The loop sends its page writes in order, up to the first one that
    fails, and reports no error only when it has sent them all. *)
Lemma writePages_sent (tlv : list byte) :
  forall (turns i : nat) (page : byte) (w : World Card),
    i + 4 * turns <= len tlv ->
    exists n,
      n <= turns
      /\ sent (snd (writePages cardTransmit turns tlv i page w))
         = sent w ++ map (pageWrite tlv i page) (seq 0 n)
      /\ (fst (writePages cardTransmit turns tlv i page w) = None -> n = turns).
Proof.
  induction turns as [|turns IH]; intros i page w H.
  - exists 0. cbn. rewrite app_nil_r. auto.
  - cbn [writePages]. unfold bind.
    pose proof (writePage_sent Card cardTransmit page (slice tlv i (i + 4)) w)
      as Hsent.
    rewrite slice_length in Hsent by lia.
    specialize (Hsent ltac:(lia)).
    destruct (writePage cardTransmit page (slice tlv i (i + 4)) w)
      as [[e|] w1]; cbn [fst snd] in *.
    + exists 1. unfold ret. cbn [fst snd].
      split; [lia|]. split; [|discriminate].
      rewrite Hsent. cbn [seq map]. unfold pageWrite.
      change (Nat.iter 0 nextPage page) with page.
      now rewrite Nat.mul_0_r, Nat.add_0_r.
    + destruct (IH (i + 4) (nextPage page) w1 ltac:(lia)) as [n [Hn [Hs Hf]]].
      exists (S n). split; [lia|]. split; [|intros E; f_equal; auto].
      rewrite Hs, Hsent, <- app_assoc. f_equal.
      cbn [seq map app]. f_equal.
      * unfold pageWrite. change (Nat.iter 0 nextPage page) with page.
        now rewrite Nat.mul_0_r, Nat.add_0_r.
      * rewrite <- seq_shift, map_map. apply map_ext. intros k.
        unfold pageWrite. rewrite Nat.iter_succ_r.
        f_equal. f_equal; lia.
Qed.

Lemma nextPage_byte_of_int (n : nat) :
  nextPage (byte_of_int n) = byte_of_int (S n).
Proof.
  unfold nextPage, byte_of_int. rewrite to_N_byte_of_N. unfold byte_of_N.
  rewrite N.Div0.add_mod_idemp_l.
  replace (N.of_nat n + 1)%N with (N.of_nat (S n)) by lia.
  reflexivity.
Qed.

(** The APDUs sent after the first [k] page writes. *)
Lemma afterPageWrites_sent (tlv : list byte) (w : World Card) :
  forall k,
    4 * k <= len tlv ->
    sent (afterPageWrites cardTransmit tlv w k)
    = sent w ++ map (fun j => writeAPDU (byte_of_int (4 + j))
                                (slice tlv (4 * j) (4 * j + 4)))
                    (seq 0 k).
Proof.
  induction k as [|k IH]; intros H.
  - cbn. now rewrite app_nil_r.
  - cbn [afterPageWrites]. rewrite writePage_sent by (rewrite slice_length; lia).
    rewrite IH by lia. rewrite seq_S, map_app, <- app_assoc. reflexivity.
Qed.

(** The loop, entered at page [k0] in the state after the pages before it,
    when every page write from there on succeeds. *)
Lemma writePages_all_ok (tlv : list byte) (w : World Card) (total : nat) :
  forall turns k0,
    k0 + turns = total ->
    (forall j, k0 <= j -> j < total ->
               fst (writePage cardTransmit (byte_of_int (4 + j))
                      (slice tlv (4 * j) (4 * j + 4))
                      (afterPageWrites cardTransmit tlv w j)) = None) ->
    writePages cardTransmit turns tlv (4 * k0) (byte_of_int (4 + k0))
      (afterPageWrites cardTransmit tlv w k0)
    = (None, afterPageWrites cardTransmit tlv w total).
Proof.
  induction turns as [|turns IH]; intros k0 Hk Hok.
  - replace total with k0 by lia. reflexivity.
  - cbn [writePages]. unfold bind.
    pose proof (Hok k0 ltac:(lia) ltac:(lia)) as H0.
    assert (Hnext : afterPageWrites cardTransmit tlv w (S k0)
                    = snd (writePage cardTransmit (byte_of_int (4 + k0))
                             (slice tlv (4 * k0) (4 * k0 + 4))
                             (afterPageWrites cardTransmit tlv w k0)))
      by reflexivity.
    destruct (writePage cardTransmit (byte_of_int (4 + k0))
                (slice tlv (4 * k0) (4 * k0 + 4))
                (afterPageWrites cardTransmit tlv w k0)) as [r w1].
    cbn [fst snd] in *. subst r. rewrite <- Hnext.
    rewrite nextPage_byte_of_int.
    replace (4 * k0 + 4) with (4 * S k0) by lia.
    replace (S (4 + k0)) with (4 + S k0) by lia.
    apply IH; [lia|]. intros j Hj1 Hj2. apply Hok; lia.
Qed.

(** The loop, entered at page [k0], when the first page write that fails is
    the one of page [k]. *)
Lemma writePages_first_failure (tlv : list byte) (w : World Card) (total : nat) :
  forall turns k0 k e,
    k0 + turns = total -> k0 <= k -> k < total ->
    (forall j, k0 <= j -> j < k ->
               fst (writePage cardTransmit (byte_of_int (4 + j))
                      (slice tlv (4 * j) (4 * j + 4))
                      (afterPageWrites cardTransmit tlv w j)) = None) ->
    fst (writePage cardTransmit (byte_of_int (4 + k))
           (slice tlv (4 * k) (4 * k + 4))
           (afterPageWrites cardTransmit tlv w k)) = Some e ->
    writePages cardTransmit turns tlv (4 * k0) (byte_of_int (4 + k0))
      (afterPageWrites cardTransmit tlv w k0)
    = (Some (WritePageError (byte_of_int (4 + k)) e),
       afterPageWrites cardTransmit tlv w (S k)).
Proof.
  induction turns as [|turns IH]; intros k0 k e Hk Hle Hlt Hok Hfail; [lia|].
  cbn [writePages]. unfold bind.
  assert (Hnext : afterPageWrites cardTransmit tlv w (S k0)
                  = snd (writePage cardTransmit (byte_of_int (4 + k0))
                           (slice tlv (4 * k0) (4 * k0 + 4))
                           (afterPageWrites cardTransmit tlv w k0)))
    by reflexivity.
  destruct (Nat.eq_dec k0 k) as [->|Hne].
  - destruct (writePage cardTransmit (byte_of_int (4 + k))
                (slice tlv (4 * k) (4 * k + 4))
                (afterPageWrites cardTransmit tlv w k)) as [r w1].
    cbn [fst snd] in *. subst r. now rewrite Hnext.
  - pose proof (Hok k0 ltac:(lia) ltac:(lia)) as H0.
    destruct (writePage cardTransmit (byte_of_int (4 + k0))
                (slice tlv (4 * k0) (4 * k0 + 4))
                (afterPageWrites cardTransmit tlv w k0)) as [r w1].
    cbn [fst snd] in *. subst r. rewrite <- Hnext.
    rewrite nextPage_byte_of_int.
    replace (4 * k0 + 4) with (4 * S k0) by lia.
    replace (S (4 + k0)) with (4 + S k0) by lia.
    apply IH; [lia|lia|lia| |exact Hfail].
    intros j Hj1 Hj2. apply Hok; lia.
Qed.

(** C5: the TLV writer refuses every message longer than 254 bytes, with
    the error of a message too large for a one-byte length, and sends
    nothing.  For a message of at most 254 bytes the buffer it writes is
    0x03, the length of the message, the message, 0xFE, and less than 4
    zero bytes that bring the length to a multiple of 4.  These bytes are
    written in pages of 4 from page 4 on, in order, each write in the state
    the write before it left: when every page write succeeds, the writer
    returns no error in the state after all the pages, having sent them
    all; when the write of a page is the first to fail, it returns the
    error of that page in the state right after that write, the pages after
    it unsent. *)
Theorem writeNDEFToType2_tlv (ndef : list byte) (w : World Card) :
  (254 < len ndef ->
   writeNDEFToType2 cardTransmit ndef w = (Some (NDEFTooLarge (len ndef)), w))
  /\ (len ndef <= 254 ->
      let tlv := ndefTLV ndef in
      let pad := len tlv - (len ndef + 3) in
      let out := writeNDEFToType2 cardTransmit ndef w in
      let pageAPDU := fun k => writeAPDU (byte_of_int (4 + k))
                                 (slice tlv (4 * k) (4 * k + 4)) in
      let write := fun k => writePage cardTransmit (byte_of_int (4 + k))
                              (slice tlv (4 * k) (4 * k + 4)) in
      let after := afterPageWrites cardTransmit tlv w in
      tlv = [x03; byte_of_int (len ndef)] ++ ndef ++ [xfe] ++ repeat x00 pad
      /\ int_of_byte (byte_of_int (len ndef)) = len ndef
      /\ pad < 4
      /\ len tlv = 4 * (len tlv / 4)
      /\ List.concat (map (fun k => slice tlv (4 * k) (4 * k + 4))
                          (seq 0 (len tlv / 4))) = tlv
      /\ (exists n,
             n <= len tlv / 4
             /\ sent (snd out) = sent w ++ map pageAPDU (seq 0 n)
             /\ (fst out = None -> n = len tlv / 4))
      /\ (forall k, k <= len tlv / 4 ->
                    sent (after k) = sent w ++ map pageAPDU (seq 0 k))
      /\ ((forall j, j < len tlv / 4 -> fst (write j (after j)) = None) ->
          out = (None, after (len tlv / 4)))
      /\ (forall k e,
             k < len tlv / 4 ->
             (forall j, j < k -> fst (write j (after j)) = None) ->
             fst (write k (after k)) = Some e ->
             out = (Some (WritePageError (byte_of_int (4 + k)) e),
                    after (S k)))).
Proof.
  split.
  - intros H. unfold writeNDEFToType2.
    apply Nat.ltb_lt in H. rewrite H. reflexivity.
  - intros H tlv pad out pageAPDU write after.
    destruct (ndefTLV_shape ndef) as [Hshape [Hpad Hmult]].
    fold tlv in Hshape, Hpad, Hmult. fold pad in Hshape, Hpad.
    assert (T : (len tlv + 3) / 4 = len tlv / 4).
    { rewrite Hmult at 1.
      replace (4 * (len tlv / 4) + 3) with (3 + (len tlv / 4) * 4) by lia.
      rewrite Nat.div_add by lia. reflexivity. }
    assert (Hout : out = writePages cardTransmit (len tlv / 4) tlv (4 * 0)
                           (byte_of_int (4 + 0)) (after 0)).
    { subst out. unfold writeNDEFToType2.
      destruct (254 <? len ndef)%nat eqn:C; [apply Nat.ltb_lt in C; lia|].
      fold tlv. rewrite T. reflexivity. }
    split; [exact Hshape|]. split; [apply int_of_byte_of_int; lia|].
    split; [exact Hpad|]. split; [exact Hmult|]. split.
    { rewrite pages_concat by lia. rewrite <- Hmult. apply firstn_all. }
    split.
    { rewrite Hout.
      destruct (writePages_sent tlv (len tlv / 4) 0 x04 w ltac:(lia))
        as [n [Hn [Hs Hf]]].
      exists n. split; [exact Hn|]. split; [|exact Hf].
      change (writePages cardTransmit (len tlv / 4) tlv (4 * 0)
                (byte_of_int (4 + 0)) (after 0))
        with (writePages cardTransmit (len tlv / 4) tlv 0 x04 w).
      rewrite Hs. f_equal. apply map_ext. intros k.
      unfold pageWrite, pageAPDU, byte_of_int. rewrite iter_nextPage.
      change (Byte.to_N x04) with 4%N.
      replace (4 + N.of_nat k)%N with (N.of_nat (4 + k)) by lia.
      reflexivity. }
    split.
    { intros k Hk. apply afterPageWrites_sent. lia. }
    split.
    { intros Hok. rewrite Hout.
      apply (writePages_all_ok tlv w (len tlv / 4)); [lia|].
      intros j _ Hj. now apply Hok. }
    { intros k e Hk Hok Hfail. rewrite Hout.
      apply (writePages_first_failure tlv w (len tlv / 4)); [lia|lia|exact Hk| |exact Hfail].
      intros j _ Hj. now apply Hok. }
Qed.

End WriterProperties.

Lemma writeNDEFToType2_tlv_witness :
  writeNDEFToType2 scriptedCard (repeat x00 255) (mkWorld [] [])
  = (Some (NDEFTooLarge 255), mkWorld [] [])
  /\ ndefTLV [xd1; x01; x00] = [x03; x03; xd1; x01; x00; xfe; x00; x00]
  /\ writeNDEFToType2 scriptedCard [xd1; x01; x00]
       (mkWorld [Ok [x90; x00]; Ok [x90; x00]] [])
     = (None,
        mkWorld [] [[xff; xd6; x00; x04; x04; x03; x03; xd1; x01];
                    [xff; xd6; x00; x05; x04; x00; xfe; x00; x00]])
  /\ writeNDEFToType2 scriptedCard [xd1; x01; x00]
       (mkWorld [Ok [x90; x00]; Ok [x6a; x82]; Ok [x90; x00]] [])
     = (Some (WritePageError x05 (APDUFailed x6a x82)),
        mkWorld [Ok [x90; x00]]
                [[xff; xd6; x00; x04; x04; x03; x03; xd1; x01];
                 [xff; xd6; x00; x05; x04; x00; xfe; x00; x00]]).
Proof.
  split; [|split; [|split]].
  - apply (proj1 (writeNDEFToType2_tlv _ scriptedCard (repeat x00 255)
                    (mkWorld [] []))).
    vm_compute. lia.
  - exact (proj1 (proj2 (writeNDEFToType2_tlv _ scriptedCard [xd1; x01; x00]
                           (mkWorld [] []))
                    ltac:(vm_compute; lia))).
  - apply (proj1 (proj2 (proj2 (proj2 (proj2 (proj2 (proj2 (proj2
             (proj2 (writeNDEFToType2_tlv _ scriptedCard [xd1; x01; x00]
                       (mkWorld [Ok [x90; x00]; Ok [x90; x00]] []))
                ltac:(vm_compute; lia)))))))))).
    intros j Hj. change (j < 2) in Hj.
    destruct j as [|[|j]]; [reflexivity|reflexivity|lia].
  - apply (proj2 (proj2 (proj2 (proj2 (proj2 (proj2 (proj2 (proj2
             (proj2 (writeNDEFToType2_tlv _ scriptedCard [xd1; x01; x00]
                       (mkWorld [Ok [x90; x00]; Ok [x6a; x82]; Ok [x90; x00]] []))
                ltac:(vm_compute; lia)))))))))
             1 (APDUFailed x6a x82)).
    + vm_compute. lia.
    + intros j Hj. destruct j as [|j]; [reflexivity|lia].
    + reflexivity.
Defined.

(** * More properties of the tools *)

(** ** The URI table and the URI decoder *)

Lemma codeOfPrefix_getURIPrefix (code : byte) :
  (Byte.to_N code <= 0x23)%N ->
  codeOfPrefix (URI.getURIPrefix code) = Some code.
Proof.
  intros H.
  destruct code; try (vm_compute in H; exfalso; apply H; reflexivity);
    vm_compute; reflexivity.
Qed.

(** X1: the table of URI prefixes.  A code gives the marker "Unknown
    prefix" exactly when it is above 0x23, and the 36 codes up to 0x23 have
    36 different prefixes: two known codes with the same prefix are the same
    code. *)
Theorem getURIPrefix_table :
  (forall code : byte,
      URI.getURIPrefix code = "Unknown prefix" <-> (0x23 < Byte.to_N code)%N)
  /\ (forall code1 code2 : byte,
         (Byte.to_N code1 <= 0x23)%N -> (Byte.to_N code2 <= 0x23)%N ->
         URI.getURIPrefix code1 = URI.getURIPrefix code2 -> code1 = code2).
Proof.
  split.
  - intros code. destruct code; vm_compute; split; intros H;
      solve [reflexivity | discriminate H].
  - intros code1 code2 H1 H2 E.
    apply codeOfPrefix_getURIPrefix in H1.
    apply codeOfPrefix_getURIPrefix in H2.
    rewrite E in H1. congruence.
Qed.

Lemma getURIPrefix_table_witness :
  URI.getURIPrefix x24 = "Unknown prefix" /\ (x04 = x04).
Proof.
  destruct getURIPrefix_table as [H1 H2].
  split.
  - apply (proj2 (H1 x24)). reflexivity.
  - apply (H2 x04 x04); [vm_compute; discriminate|vm_compute; discriminate|reflexivity].
Defined.

(** X2: the URI decoder shows a URI for every payload but two: the empty
    payload and the payload that is the single byte 0x00 (no prefix and no
    suffix).  For a payload with a suffix the URI is the prefix of the first
    byte followed by the bytes after it. *)
Theorem decodeURI_defined (payload : list byte) :
  (URI.decodeURI payload = None <-> payload = [] \/ payload = [x00])
  /\ (forall code b rest,
         payload = code :: b :: rest ->
         URI.decodeURI payload
         = Some (URI.getURIPrefix code ++ string_of_list_byte (b :: rest))%string).
Proof.
  split.
  - destruct payload as [|code [|b rest]].
    + split; [auto|reflexivity].
    + split.
      * intros H. right.
        destruct code; vm_compute in H; solve [reflexivity | discriminate H].
      * intros [H|H]; [discriminate H|]. injection H as ->. reflexivity.
    + split; [intros H; discriminate H|intros [H|H]; discriminate H].
  - intros code b rest ->. reflexivity.
Qed.

Lemma decodeURI_defined_witness :
  URI.decodeURI [x00] = None
  /\ URI.decodeURI [x05; x31; x32] = Some "tel:12".
Proof.
  split.
  - apply (proj2 (proj1 (decodeURI_defined [x00]))). right. reflexivity.
  - exact (proj2 (decodeURI_defined [x05; x31; x32]) x05 x31 [x32] eq_refl).
Defined.

(** X3: what the writer does to a URI is a normalisation.  For every
    string, whatever its scheme, the payload built for it decodes to a URI
    that begins with "https://", and this URI is a fixed point: built and
    decoded again it comes back unchanged. *)
Theorem uri_normalisation (s : string) :
  exists u : string,
    URI.decodeURI (URI.uriPayload s) = Some u
    /\ HasPrefix u "https://" = true
    /\ URI.decodeURI (URI.uriPayload u) = Some u.
Proof.
  set (t := TrimPrefix (TrimPrefix s "http://") "https://").
  exists ("https://" ++ t)%string.
  split; [|split].
  - unfold URI.uriPayload. fold t. apply decodeURI_https.
  - apply HasPrefix_append.
  - unfold URI.uriPayload.
    replace (TrimPrefix ("https://" ++ t) "http://") with ("https://" ++ t)%string
      by reflexivity.
    rewrite TrimPrefix_append. apply decodeURI_https.
Qed.

(** ** Records *)

(** X4: the record that the writer builds is the record that the analysis
    reads.  For every URI whose payload has at most 255 bytes, the message
    of [buildURIRecord] is parsed as exactly one record, a complete short
    record of type 'U' with that payload, shown as the URI that the URI
    decoder gives for the payload; for a URI that begins with "https://"
    this is the URI itself. *)
Theorem build_then_parse (uri : string) :
  len (URI.uriPayload uri) <= 255 ->
  (exists r : NDEF.RecordReport,
      NDEF.parseNDEFMessage (URI.buildURIRecord uri) = [r]
      /\ NDEF.body r
         = NDEF.Parsed x01 (N.of_nat (len (URI.uriPayload uri))) x00 [x55] []
             (URI.uriPayload uri)
             (NDEF.URIPayload (URI.parseURIPayload (URI.uriPayload uri)))
      /\ NDEF.recordURI r = URI.decodeURI (URI.uriPayload uri))
  /\ (HasPrefix uri "https://" = true ->
      map NDEF.recordURI (NDEF.parseNDEFMessage (URI.buildURIRecord uri))
      = [Some uri]).
Proof.
  intros Hle. pose proof (parse_buildURIRecord uri Hle) as P.
  split.
  - eexists. split; [exact P|]. split; reflexivity.
  - intros Hp. rewrite P. cbn [map]. f_equal.
    change (URI.decodeURI (URI.uriPayload uri) = Some uri).
    apply HasPrefix_split in Hp.
    set (t := string_drop (String.length "https://") uri) in Hp.
    rewrite Hp. unfold URI.uriPayload.
    replace (TrimPrefix ("https://" ++ t) "http://") with ("https://" ++ t)%string
      by reflexivity.
    rewrite TrimPrefix_append. apply decodeURI_https.
Qed.

Lemma build_then_parse_witness :
  map NDEF.recordURI
    (NDEF.parseNDEFMessage (URI.buildURIRecord "https://dnd.qrand.me/r/04A1B2C3"))
  = [Some "https://dnd.qrand.me/r/04A1B2C3"].
Proof.
  apply (proj2 (build_then_parse "https://dnd.qrand.me/r/04A1B2C3"
                  ltac:(vm_compute; lia))).
  reflexivity.
Defined.

(** X5: the header byte and its fields.  The flags MB, ME, CF, SR, IL and
    the type name format that the parser reads from a header byte are its
    bits 7, 6, 5, 4, 3 and 2-0; the type name format is below 8, so that
    its description is never "Invalid". *)
Theorem decodeHeader_fields (h : byte) :
  let d := NDEF.decodeHeader h in
  (Byte.to_N h
   = 128 * N.b2n (NDEF.mb d) + 64 * N.b2n (NDEF.me d) + 32 * N.b2n (NDEF.cf d)
     + 16 * N.b2n (NDEF.sr d) + 8 * N.b2n (NDEF.il d) + NDEF.tnf d)%N
  /\ (NDEF.tnf d < 8)%N
  /\ NDEF.getTNFDescription (NDEF.tnf d) <> "Invalid".
Proof.
  destruct h; vm_compute; (split; [reflexivity|split; [reflexivity|discriminate]]).
Qed.

Lemma parseRecord_continue (data : list byte) (offset offset' : nat) :
  snd (NDEF.parseRecord data offset) = Some offset' ->
  NDEF.me (NDEF.decodeHeader (byteAt data offset)) = false
  /\ exists typeLength payloadLength idLength recordType id payload view,
       fst (NDEF.parseRecord data offset)
       = NDEF.Parsed typeLength payloadLength idLength recordType id payload view.
Proof.
  unfold NDEF.parseRecord.
  destruct (NDEF.me (NDEF.decodeHeader (byteAt data offset))) eqn:M;
    repeat match goal with
           | |- context [if ?c then _ else _] => destruct c
           end;
    cbn [fst snd]; intros H; try discriminate H;
    (split; [reflexivity|]); repeat eexists.
Qed.

Lemma parseLoop_shape (data : list byte) :
  forall fuel offset recordNum out,
    NDEF.parseLoop fuel data offset recordNum = Some out ->
    map NDEF.recordNum out = seq recordNum (List.length out)
    /\ (offset < len data -> out <> [])
    /\ (forall pre r post,
           out = pre ++ r :: post -> post <> [] ->
           NDEF.me (NDEF.flags r) = false
           /\ exists typeLength payloadLength idLength recordType id payload view,
                NDEF.body r
                = NDEF.Parsed typeLength payloadLength idLength recordType id
                    payload view).
Proof.
  induction fuel as [|fuel IH]; intros offset recordNum out;
    cbn [NDEF.parseLoop];
    destruct (offset <? len data)%nat eqn:C.
  - discriminate.
  - intros [= <-]. apply Nat.ltb_ge in C.
    split; [reflexivity|]. split; [lia|].
    intros pre r post H. destruct pre; discriminate H.
  - destruct (snd (NDEF.parseRecord data offset)) as [offset'|] eqn:S.
    + destruct (NDEF.parseLoop fuel data offset' (Datatypes.S recordNum))
        as [out'|] eqn:L; cbn [option_map]; [|discriminate].
      intros [= <-]. destruct (IH _ _ _ L) as [Hn [_ Hp]].
      split; [cbn [map List.length seq NDEF.recordNum]; now rewrite Hn|].
      split; [discriminate|].
      intros pre r post H Hpost.
      destruct pre as [|a pre]; cbn [app] in H; injection H as <- H.
      * cbn [NDEF.flags NDEF.body]. now apply parseRecord_continue in S.
      * now apply (Hp pre r post).
    + intros [= <-]. split; [reflexivity|]. split; [discriminate|].
      intros pre r post H Hpost.
      destruct pre as [|a pre]; cbn [app] in H; injection H as _ H.
      * congruence.
      * destruct pre; discriminate H.
  - intros [= <-]. apply Nat.ltb_ge in C.
    split; [reflexivity|]. split; [lia|].
    intros pre r post H. destruct pre; discriminate H.
Qed.

(** X6: the shape of what the record parser reports.  The records are
    numbered 1, 2, 3, ...; a message that is not empty gives at least one
    report; and every report but the last is a complete record without the
    flag ME: after a record with ME, and after a record that cannot be read
    to its end, nothing more is reported. *)
Theorem parseNDEFMessage_shape (data : list byte) :
  let out := NDEF.parseNDEFMessage data in
  map NDEF.recordNum out = seq 1 (List.length out)
  /\ (data <> [] -> out <> [])
  /\ (forall pre r post,
         out = pre ++ r :: post -> post <> [] ->
         NDEF.me (NDEF.flags r) = false
         /\ exists typeLength payloadLength idLength recordType id payload view,
              NDEF.body r
              = NDEF.Parsed typeLength payloadLength idLength recordType id
                  payload view).
Proof.
  intros out. subst out. unfold NDEF.parseNDEFMessage.
  destruct (NDEF.parseLoop (len data) data 0 1) as [out|] eqn:L.
  - destruct (parseLoop_shape data _ _ _ _ L) as [Hn [Hne Hp]].
    split; [exact Hn|]. split; [|exact Hp].
    intros Hd. apply Hne. destruct data; [congruence|cbn; lia].
  - exfalso. apply (parseLoop_total data (len data) 0 1); [lia|exact L].
Qed.

Lemma parseNDEFMessage_shape_witness :
  NDEF.parseNDEFMessage [x11; x00; x00; xd1; x00; x00] <> []
  /\ NDEF.me (NDEF.decodeHeader x11) = false.
Proof.
  destruct (parseNDEFMessage_shape [x11; x00; x00; xd1; x00; x00]) as [_ [H1 H2]].
  split.
  - apply H1. discriminate.
  - apply (H2 [] (NDEF.mkReport 1 (NDEF.decodeHeader x11)
                    (NDEF.Parsed x00 0 x00 [] [] [] NDEF.NotParsed))
              [NDEF.mkReport 2 (NDEF.decodeHeader xd1)
                 (NDEF.Parsed x00 0 x00 [] [] [] NDEF.NotParsed)]).
    + reflexivity.
    + discriminate.
Defined.

(** ** Text payloads *)

Lemma land_63_mod (b : byte) : N.land (Byte.to_N b) 63 = (Byte.to_N b mod 64)%N.
Proof. destruct b; reflexivity. Qed.

Lemma maskSet_128 (b : byte) : maskSet b 128 = (128 <=? Byte.to_N b)%N.
Proof. destruct b; reflexivity. Qed.

Lemma length_list_byte_of_string (s : string) :
  List.length (list_byte_of_string s) = String.length s.
Proof.
  unfold list_byte_of_string. rewrite length_map.
  induction s as [|c s IH]; cbn; [reflexivity|now rewrite IH].
Qed.

Lemma string_of_list_byte_app (a b : list byte) :
  string_of_list_byte (a ++ b)
  = (string_of_list_byte a ++ string_of_list_byte b)%string.
Proof.
  unfold string_of_list_byte. rewrite map_app.
  induction (map ascii_of_byte a) as [|c l IH]; cbn; [reflexivity|now rewrite IH].
Qed.

Lemma length_string_of_list_byte (a : list byte) :
  String.length (string_of_list_byte a) = List.length a.
Proof.
  rewrite <- (list_byte_of_string_of_list_byte a) at 2.
  now rewrite length_list_byte_of_string.
Qed.

(** X7: a text payload that is put together is taken apart as it was.  For
    a language code of at most 63 characters, any text and either encoding
    flag, the payload made of the status byte (the length of the language
    code, plus 0x80 for UTF-16), the language code and the text is parsed
    as that text, that language code and that flag. *)
Theorem parseTextPayload_roundtrip (langCode textData : string) (utf16 : bool) :
  String.length langCode <= 63 ->
  Text.parseTextPayload
    (byte_of_N (N.of_nat (String.length langCode) + (if utf16 then 128 else 0))
     :: list_byte_of_string langCode ++ list_byte_of_string textData)
  = Text.TextRecord textData langCode utf16.
Proof.
  intros H.
  set (status := byte_of_N (N.of_nat (String.length langCode)
                            + (if utf16 then 128 else 0))).
  assert (Hs : Byte.to_N status
               = (N.of_nat (String.length langCode)
                  + (if utf16 then 128 else 0))%N).
  { unfold status. rewrite to_N_byte_of_N. apply N.mod_small.
    destruct utf16; lia. }
  unfold Text.parseTextPayload.
  rewrite land_63_mod, maskSet_128, Hs.
  assert (Hm : ((N.of_nat (String.length langCode)
                 + (if utf16 then 128 else 0)) mod 64)%N
               = N.of_nat (String.length langCode)).
  { destruct utf16.
    - replace (N.of_nat (String.length langCode) + 128)%N
        with (N.of_nat (String.length langCode) + 2 * 64)%N by lia.
      rewrite N.Div0.mod_add. apply N.mod_small. lia.
    - rewrite N.add_0_r. apply N.mod_small. lia. }
  rewrite Hm, Nat2N.id.
  assert (Hf : (128 <=? N.of_nat (String.length langCode)
                        + (if utf16 then 128 else 0))%N = utf16).
  { destruct utf16; [apply N.leb_le; lia|apply N.leb_gt; lia]. }
  rewrite Hf.
  set (l := list_byte_of_string langCode).
  set (t := list_byte_of_string textData).
  assert (Hl : List.length l = String.length langCode)
    by apply length_list_byte_of_string.
  destruct (len (status :: l ++ t) <? 1 + String.length langCode)%nat eqn:C.
  { apply Nat.ltb_lt in C. unfold len in C. cbn [List.length] in C.
    rewrite length_app in C. lia. }
  unfold slice, sliceFrom.
  replace (1 + String.length langCode - 1) with (List.length l) by lia.
  cbn [skipn Nat.add]. rewrite <- Hl.
  rewrite firstn_app, Nat.sub_diag, firstn_all. cbn [firstn]. rewrite app_nil_r.
  rewrite skipn_app, Nat.sub_diag, skipn_all. cbn [skipn app].
  unfold l, t. now rewrite !string_of_list_byte_of_string.
Qed.

Lemma parseTextPayload_roundtrip_witness :
  Text.parseTextPayload (x02 :: list_byte_of_string "en" ++ list_byte_of_string "hello")
  = Text.TextRecord "hello" "en" false.
Proof.
  apply (parseTextPayload_roundtrip "en" "hello" false). cbn. lia.
Defined.

(** X8: what the text parser accepts and what it gives.  A payload is an
    invalid text record exactly when it is not empty and has fewer bytes
    after the status byte than the low 6 bits of the status byte announce.
    When a text is given, the language code has the announced length, the
    language code followed by the text is all of the payload after the
    status byte, and the flag is bit 7 of the status byte; bit 6 is not
    looked at. *)
Theorem parseTextPayload_parts (payload : list byte) :
  (Text.parseTextPayload payload = Text.InvalidTextRecord
   <-> exists status rest,
         payload = status :: rest
         /\ len rest < N.to_nat (Byte.to_N status mod 64))
  /\ (forall textData langCode utf16,
         Text.parseTextPayload payload = Text.TextRecord textData langCode utf16 ->
         exists status rest,
           payload = status :: rest
           /\ String.length langCode = N.to_nat (Byte.to_N status mod 64)
           /\ (langCode ++ textData)%string = string_of_list_byte rest
           /\ utf16 = (128 <=? Byte.to_N status)%N).
Proof.
  destruct payload as [|status rest].
  - split.
    + split; [intros H; discriminate H|intros [s [r [H _]]]; discriminate H].
    + intros ? ? ? H. discriminate H.
  - unfold Text.parseTextPayload.
    rewrite land_63_mod, maskSet_128.
    set (L := N.to_nat (Byte.to_N status mod 64)).
    assert (Hlen : len (status :: rest) = S (len rest)) by reflexivity.
    rewrite Hlen.
    destruct (S (len rest) <? 1 + L)%nat eqn:C.
    + apply Nat.ltb_lt in C. split.
      * split; [|reflexivity]. intros _. exists status, rest. split; [reflexivity|lia].
      * intros ? ? ? H. discriminate H.
    + apply Nat.ltb_ge in C. split.
      * split; [intros H; discriminate H|].
        intros [s [r [H Hlt]]]. injection H as <- <-. fold L in Hlt. lia.
      * intros textData langCode utf16 [= <- <- <-].
        exists status, rest. split; [reflexivity|].
        unfold slice, sliceFrom.
        cbn [skipn Nat.add]. replace (S L - 1) with L by lia.
        split; [|split; [|reflexivity]].
        -- rewrite length_string_of_list_byte, length_firstn.
           unfold len in C. lia.
        -- rewrite <- string_of_list_byte_app. now rewrite firstn_skipn.
Qed.

Lemma parseTextPayload_parts_witness :
  Text.parseTextPayload [x02; x65] = Text.InvalidTextRecord
  /\ (exists status rest,
         [xc2; x65; x6e; x68; x69] = status :: rest
         /\ String.length "en" = N.to_nat (Byte.to_N status mod 64)
         /\ ("en" ++ "hi")%string = string_of_list_byte rest
         /\ true = (128 <=? Byte.to_N status)%N).
Proof.
  split.
  - apply (proj2 (proj1 (parseTextPayload_parts [x02; x65]))).
    exists x02, [x65]. split; [reflexivity|cbn; lia].
  - apply (proj2 (parseTextPayload_parts [xc2; x65; x6e; x68; x69]) "hi" "en" true).
    reflexivity.
Defined.

(** ** The TLV analysis as a whole *)

(** What a step that goes on tells: the type byte is not the terminator,
    the entry is neither a terminator nor a truncated NDEF message, and an
    NDEF TLV counts as found from a type byte 0x03 on. *)
Lemma tlvStep_continue (data : list byte) (offset : nat) (f : bool)
    (e : TLV.TLVEntry) (offset' : nat) (f' : bool) :
  TLV.tlvStep data offset f = TLV.Continue e offset' f' ->
  byteAt data offset <> xfe
  /\ f' = f || Byte.eqb (byteAt data offset) x03
  /\ match e with
     | TLV.Terminator _ | TLV.NDEFTruncated _ _ _ _ => False
     | _ => True
     end.
Proof.
  unfold TLV.tlvStep.
  destruct (byteAt data offset); cbv iota;
    repeat match goal with
           | |- context [if ?c then _ else _] => destruct c
           end;
    intros H; try discriminate H; injection H as <- <- <-;
    (split; [discriminate|]);
    (split; [destruct f; reflexivity|exact I]).
Qed.

(** What a step that returns tells. *)
Lemma tlvStep_return (data : list byte) (offset : nat) (f : bool)
    (e : TLV.TLVEntry) :
  TLV.tlvStep data offset f = TLV.Return e ->
  (byteAt data offset = xfe /\ e = TLV.Terminator f)
  \/ (byteAt data offset = x03
      /\ exists length remaining partial records,
           e = TLV.NDEFTruncated length remaining partial records).
Proof.
  unfold TLV.tlvStep.
  destruct (byteAt data offset); cbv iota;
    repeat match goal with
           | |- context [if ?c then _ else _] => destruct c
           end;
    intros H; try discriminate H; injection H as <-;
    solve [left; split; reflexivity
          | right; split; [reflexivity|repeat eexists]].
Qed.

(** Induction along the turns of the loop. *)
Lemma tlvFrom_induction (data : list byte) (startPage : Z)
    (P : nat -> bool -> list TLV.Report -> Prop) :
  (forall offset f,
      len data <= offset -> P offset f (if f then [] else [TLV.NoNDEFFound])) ->
  (forall offset f e,
      offset < len data ->
      TLV.tlvStep data offset f = TLV.Return e ->
      P offset f [TLV.Entry (startPage + Z.of_nat (offset / 4)) (offset mod 4)
                    (byteAt data offset) e]) ->
  (forall offset f e offset' f',
      offset < len data ->
      TLV.tlvStep data offset f = TLV.Continue e offset' f' ->
      P offset' f' (TLV.tlvFrom data startPage offset' f') ->
      P offset f (TLV.Entry (startPage + Z.of_nat (offset / 4)) (offset mod 4)
                    (byteAt data offset) e
                  :: TLV.tlvFrom data startPage offset' f')) ->
  forall offset f, P offset f (TLV.tlvFrom data startPage offset f).
Proof.
  intros Hend Hret Hcont offset f.
  remember (len data - offset) as n eqn:Hn.
  revert offset f Hn.
  induction n as [n IH] using lt_wf_ind. intros offset f Hn.
  destruct (Nat.lt_ge_cases offset (len data)) as [Hlt|Hge].
  - rewrite tlvFrom_step by exact Hlt.
    destruct (TLV.tlvStep data offset f) as [e offset' f'|e] eqn:S.
    + apply Hcont; [exact Hlt|exact S|].
      pose proof (tlvStep_progress _ _ _ _ _ _ S) as Hp.
      apply (IH (len data - offset')); [lia|reflexivity].
    + now apply Hret.
  - rewrite tlvFrom_end by exact Hge. now apply Hend.
Qed.

(** X9: the analysis stops where it says it stops.  In the lines printed
    for a data area, a terminator entry and the entry of a truncated NDEF
    message are always the last line: whatever follows the terminator in
    the buffer is not looked at. *)
Theorem analyze_stops (data : list byte) (startPage : Z) :
  forall pre post currentPage byteInPage tlvType e,
    TLV.analyzeNDEFStructure data startPage
    = pre ++ TLV.Entry currentPage byteInPage tlvType e :: post ->
    match e with
    | TLV.Terminator _ | TLV.NDEFTruncated _ _ _ _ => post = []
    | _ => True
    end.
Proof.
  assert (G : forall offset f pre post currentPage byteInPage tlvType e,
             TLV.tlvFrom data startPage offset f
             = pre ++ TLV.Entry currentPage byteInPage tlvType e :: post ->
             match e with
             | TLV.Terminator _ | TLV.NDEFTruncated _ _ _ _ => post = []
             | _ => True
             end).
  { intros offset f.
    apply (tlvFrom_induction data startPage
             (fun _ _ l =>
                forall pre post currentPage byteInPage tlvType e,
                  l = pre ++ TLV.Entry currentPage byteInPage tlvType e :: post ->
                  match e with
                  | TLV.Terminator _ | TLV.NDEFTruncated _ _ _ _ => post = []
                  | _ => True
                  end)); clear offset f.
    - intros offset f _ pre post p b t e H.
      destruct f; destruct pre as [|a [|a' pre]]; discriminate H.
    - intros offset f e0 _ _ pre post p b t e H.
      destruct pre as [|a pre]; cbn [app] in H.
      + injection H as _ _ _ <- <-. destruct e0; auto.
      + injection H as _ H. destruct pre; discriminate H.
    - intros offset f e0 offset' f' _ S IH pre post p b t e H.
      destruct pre as [|a pre]; cbn [app] in H.
      + injection H as _ _ _ <- _.
        apply tlvStep_continue in S. destruct S as [_ [_ S]].
        destruct e0; auto; contradiction.
      + injection H as _ H. exact (IH pre post p b t e H). }
  intros pre post p b t e. unfold TLV.analyzeNDEFStructure.
  destruct (len data =? 0)%nat.
  - intros H. destruct pre as [|a [|a' pre]]; discriminate H.
  - apply G.
Qed.

(** X10: the warning and the flag agree with the entries.  For a data area
    that is not empty, the closing line that no NDEF TLV was found is
    printed exactly when no entry has the type byte 0x03 or 0xFE; and a
    terminator entry is marked complete exactly when an entry with the type
    byte 0x03 comes before it. *)
Theorem analyze_found_flag (data : list byte) (startPage : Z) :
  data <> [] ->
  let out := TLV.analyzeNDEFStructure data startPage in
  (In TLV.NoNDEFFound out
   <-> forall p b t e, In (TLV.Entry p b t e) out -> t <> x03 /\ t <> xfe)
  /\ (forall pre post p b t complete,
         out = pre ++ TLV.Entry p b t (TLV.Terminator complete) :: post ->
         (complete = true <-> exists p' b' e', In (TLV.Entry p' b' x03 e') pre)).
Proof.
  intros Hne out.
  assert (G : forall offset f,
             (In TLV.NoNDEFFound (TLV.tlvFrom data startPage offset f)
              <-> f = false
                  /\ forall p b t e,
                       In (TLV.Entry p b t e) (TLV.tlvFrom data startPage offset f) ->
                       t <> x03 /\ t <> xfe)
             /\ (forall pre post p b t complete,
                    TLV.tlvFrom data startPage offset f
                    = pre ++ TLV.Entry p b t (TLV.Terminator complete) :: post ->
                    (complete = true
                     <-> f = true
                         \/ exists p' b' e', In (TLV.Entry p' b' x03 e') pre))).
  { intros offset f.
    apply (tlvFrom_induction data startPage
             (fun _ f l =>
                (In TLV.NoNDEFFound l
                 <-> f = false
                     /\ forall p b t e, In (TLV.Entry p b t e) l ->
                                        t <> x03 /\ t <> xfe)
                /\ (forall pre post p b t complete,
                       l = pre ++ TLV.Entry p b t (TLV.Terminator complete) :: post ->
                       (complete = true
                        <-> f = true
                            \/ exists p' b' e', In (TLV.Entry p' b' x03 e') pre))));
      clear offset f.
    - intros offset f _. split.
      + destruct f; cbn [In]; split.
        * intros [].
        * intros [H _]. discriminate H.
        * intros _. split; [reflexivity|]. intros p b t e [H|[]]. discriminate H.
        * intros _. now left.
      + intros pre post p b t c H.
        destruct f; destruct pre as [|a [|a' pre]]; discriminate H.
    - intros offset f e _ S. apply tlvStep_return in S. split.
      + cbn [In]. split.
        * intros [H|[]]. discriminate H.
        * intros [_ H]. exfalso.
          specialize (H _ _ _ _ (or_introl eq_refl)).
          destruct S as [[T _]|[T _]]; tauto.
      + intros pre post p b t c H.
        destruct pre as [|a pre]; cbn [app] in H;
          [|injection H as _ H; destruct pre; discriminate H].
        injection H as _ _ _ He _.
        destruct S as [[_ ->]|[_ [? [? [? [? ->]]]]]]; [|discriminate He].
        injection He as <-. split.
        * intros ->. now left.
        * intros [H|[? [? [? []]]]]. exact H.
    - intros offset f e offset' f' _ S [IH1 IH2].
      apply tlvStep_continue in S. destruct S as [Hfe [Hf He]].
      split.
      + cbn [In]. split.
        * intros [H|H]; [discriminate H|].
          apply IH1 in H. destruct H as [Hf' Hall]. subst f'.
          apply orb_false_iff in Hf'. destruct Hf' as [-> Hx].
          split; [reflexivity|].
          intros p b t e0 [H|H]; [|now apply (Hall p b t e0)].
          injection H as _ _ <- _. split; [|exact Hfe].
          intros E. rewrite E in Hx. discriminate Hx.
        * intros [-> Hall]. right. apply IH1. split.
          -- subst f'. cbn [orb].
             destruct (Hall _ _ _ _ (or_introl eq_refl)) as [H3 _].
             destruct (Byte.eqb (byteAt data offset) x03) eqn:E; [|reflexivity].
             apply Byte.byte_dec_bl in E. contradiction.
          -- intros p b t e0 H. apply (Hall p b t e0). now right.
      + intros pre post p b t c H.
        destruct pre as [|a pre]; cbn [app] in H.
        * injection H as _ _ _ H _. subst e. contradiction.
        * injection H as <- H. rewrite (IH2 pre post p b t c H). subst f'.
          split.
          -- intros [H1|[p' [b' [e' H1]]]].
             ++ apply orb_true_iff in H1. destruct H1 as [H1|H1]; [now left|].
                apply Byte.byte_dec_bl in H1. right.
                exists (startPage + Z.of_nat (offset / 4))%Z, (offset mod 4), e.
                left. now rewrite H1.
             ++ right. exists p', b', e'. now right.
          -- intros [H1|[p' [b' [e' [H1|H1]]]]].
             ++ left. now rewrite H1.
             ++ left. injection H1 as _ _ H1 _. rewrite H1.
                apply orb_true_r.
             ++ right. now exists p', b', e'. }
  subst out. unfold TLV.analyzeNDEFStructure.
  destruct (len data =? 0)%nat eqn:E.
  { apply Nat.eqb_eq in E. destruct data; [congruence|discriminate E]. }
  destruct (G 0 false) as [G1 G2]. split.
  - rewrite G1. tauto.
  - intros pre post p b t c H. rewrite (G2 pre post p b t c H).
    split; [intros [H1|H1]; [discriminate H1|exact H1]|now right].
Qed.

Lemma analyze_found_flag_witness :
  In TLV.NoNDEFFound (TLV.analyzeNDEFStructure [x00; x01; x00] 4)
  /\ (true = true
      <-> exists p' b' e', In (TLV.Entry p' b' x03 e') [TLV.Entry 4 0 x03 TLV.NDEFEmpty]).
Proof.
  split.
  - apply (proj1 (analyze_found_flag [x00; x01; x00] 4 ltac:(discriminate))).
    intros p b t e H. vm_compute in H.
    destruct H as [H|[H|[H|[]]]]; try discriminate H;
      injection H as _ _ <- _; split; discriminate.
  - exact (proj2 (analyze_found_flag [x03; x00; xfe] 4 ltac:(discriminate))
             [TLV.Entry 4 0 x03 TLV.NDEFEmpty] [] 4%Z 2 xfe true eq_refl).
Defined.

Lemma analyze_stops_witness : @nil TLV.Report = [].
Proof.
  exact (analyze_stops [x00; xfe; x99] 4
           [TLV.Entry 4 0 x00 TLV.Null] [] 4 1 xfe (TLV.Terminator false)
           eq_refl).
Defined.

(** X11: the entries are where they say they are.  Every entry printed for
    a data area names a page and a byte in the page that stand for an
    offset inside the buffer (4 bytes per page from the start page on), and
    its type byte is the byte of the buffer at that offset; there are never
    more entries than bytes in the buffer. *)
Theorem analyze_positions (data : list byte) (startPage : Z) :
  let out := TLV.analyzeNDEFStructure data startPage in
  (forall p b t e,
      In (TLV.Entry p b t e) out ->
      exists offset,
        offset < len data
        /\ p = (startPage + Z.of_nat (offset / 4))%Z
        /\ b = offset mod 4
        /\ t = byteAt data offset)
  /\ List.length (TLV.entries out) <= len data.
Proof.
  assert (G : forall offset f,
             (forall p b t e,
                 In (TLV.Entry p b t e) (TLV.tlvFrom data startPage offset f) ->
                 exists o,
                   offset <= o /\ o < len data
                   /\ p = (startPage + Z.of_nat (o / 4))%Z
                   /\ b = o mod 4 /\ t = byteAt data o)
             /\ List.length (TLV.entries (TLV.tlvFrom data startPage offset f))
                <= len data - offset).
  { intros offset f.
    apply (tlvFrom_induction data startPage
             (fun offset _ l =>
                (forall p b t e,
                    In (TLV.Entry p b t e) l ->
                    exists o,
                      offset <= o /\ o < len data
                      /\ p = (startPage + Z.of_nat (o / 4))%Z
                      /\ b = o mod 4 /\ t = byteAt data o)
                /\ List.length (TLV.entries l) <= len data - offset));
      clear offset f.
    - intros offset f _. split.
      + intros p b t e H. destruct f; cbn [In] in H; [tauto|].
        destruct H as [H|[]]. discriminate H.
      + destruct f; cbn; lia.
    - intros offset f e Hlt _. split.
      + intros p b t e0 [H|[]]. injection H as <- <- <- _.
        exists offset. repeat split; auto.
      + cbn. lia.
    - intros offset f e offset' f' Hlt Hstep [IH1 IH2].
      apply tlvStep_progress in Hstep. split.
      + intros p b t e0 [H|H].
        * injection H as <- <- <- _. exists offset. repeat split; auto.
        * destruct (IH1 p b t e0 H) as [o [Ho H']].
          exists o. split; [lia|exact H'].
      + change (S (List.length
                     (TLV.entries (TLV.tlvFrom data startPage offset' f')))
                <= len data - offset). lia. }
  intros out. subst out. unfold TLV.analyzeNDEFStructure.
  destruct (len data =? 0)%nat eqn:E.
  - split; [|cbn; lia]. intros p b t e [H|[]]. discriminate H.
  - destruct (G 0 false) as [G1 G2]. split.
    + intros p b t e H. destruct (G1 p b t e H) as [o [_ H']]. now exists o.
    + lia.
Qed.

Lemma analyze_positions_witness :
  exists offset,
    offset < len [x00; x00; xfe]
    /\ 4%Z = (4 + Z.of_nat (offset / 4))%Z
    /\ 2 = offset mod 4
    /\ xfe = byteAt [x00; x00; xfe] offset.
Proof.
  apply (proj1 (analyze_positions [x00; x00; xfe] 4) 4%Z 2 xfe (TLV.Terminator false)).
  vm_compute. tauto.
Defined.

(** X12: an NDEF TLV that is cut short.  Where the analysis reads the type
    byte 0x03 and a length byte that is not zero and announces more bytes
    than the buffer has left, it prints one entry that carries the number
    of bytes that are left and these bytes themselves, all of the buffer
    after the length byte, with the records read from them, and then
    stops. *)
Theorem ndef_tlv_truncated (data : list byte) (startPage : Z) (offset : nat)
    (foundNDEF : bool) :
  offset + 1 < len data ->
  byteAt data offset = x03 ->
  int_of_byte (byteAt data (offset + 1)) <> 0 ->
  len data < offset + 2 + int_of_byte (byteAt data (offset + 1)) ->
  TLV.tlvFrom data startPage offset foundNDEF
  = [TLV.Entry (startPage + Z.of_nat (offset / 4)) (offset mod 4) x03
       (TLV.NDEFTruncated (byteAt data (offset + 1)) (len data - (offset + 2))
          (sliceFrom data (offset + 2))
          (NDEF.parseNDEFMessage (sliceFrom data (offset + 2))))].
Proof.
  intros Hlen Ht Hnz Hover.
  rewrite tlvFrom_step by lia.
  unfold TLV.tlvStep. rewrite Ht. cbv iota.
  destruct (len data <=? offset + 1)%nat eqn:C1;
    [apply Nat.leb_le in C1; lia|].
  destruct (int_of_byte (byteAt data (offset + 1)) =? 0)%nat eqn:C2;
    [apply Nat.eqb_eq in C2; lia|].
  destruct (len data <? offset + 2 + int_of_byte (byteAt data (offset + 1)))%nat
    eqn:C3; [|apply Nat.ltb_ge in C3; lia].
  replace (len data - offset - 2) with (len data - (offset + 2)) by lia.
  assert (Sl : slice data (offset + 2) (offset + 2 + (len data - (offset + 2)))
               = sliceFrom data (offset + 2)).
  { unfold slice, sliceFrom.
    replace (offset + 2 + (len data - (offset + 2)) - (offset + 2))
      with (List.length (skipn (offset + 2) data))
      by (rewrite length_skipn; unfold len; lia).
    apply firstn_all. }
  destruct (0 <? len data - (offset + 2))%nat eqn:C4.
  - rewrite Sl. reflexivity.
  - apply Nat.ltb_ge in C4.
    assert (E : sliceFrom data (offset + 2) = []).
    { unfold sliceFrom. apply skipn_all2. unfold len in *. lia. }
    rewrite E. reflexivity.
Qed.

Lemma ndef_tlv_truncated_witness :
  TLV.tlvFrom [x00; x03; x05; xd1; x01] 4 1 false
  = [TLV.Entry 4 1 x03
       (TLV.NDEFTruncated x05 2 [xd1; x01] (NDEF.parseNDEFMessage [xd1; x01]))].
Proof.
  exact (ndef_tlv_truncated [x00; x03; x05; xd1; x01] 4 1 false
           ltac:(cbn; lia) eq_refl ltac:(cbn; lia) ltac:(cbn; lia)).
Defined.

(** The analysis of the buffer that the TLV writer builds. *)
Lemma analyze_ndefTLV (ndef : list byte) (startPage : Z) :
  len ndef <= 254 ->
  TLV.analyzeNDEFStructure (ndefTLV ndef) startPage
  = [ TLV.Entry startPage 0 x03
        (if (len ndef =? 0)%nat then TLV.NDEFEmpty
         else TLV.NDEFMessage (byte_of_int (len ndef)) ndef
                (NDEF.parseNDEFMessage ndef));
      TLV.Entry (startPage + Z.of_nat ((len ndef + 2) / 4)) ((len ndef + 2) mod 4)
        xfe (TLV.Terminator true) ].
Proof.
  intros Hle.
  pose proof (ndefTLV_shape ndef) as Hs. cbv zeta in Hs.
  destruct Hs as [Hshape [Hpad _]].
  remember (ndefTLV ndef) as tlv eqn:Htlv.
  remember (len tlv - (len ndef + 3)) as pad eqn:Hpd.
  clear Htlv Hpd.
  set (L := byte_of_int (len ndef)) in *.
  assert (HL : int_of_byte L = len ndef) by (apply int_of_byte_of_int; lia).
  assert (Hlen : len tlv = len ndef + 3 + pad).
  { rewrite Hshape. unfold len. cbn [app List.length].
    rewrite length_app. cbn [List.length]. rewrite repeat_length. lia. }
  assert (B0 : byteAt tlv 0 = x03) by (rewrite Hshape; reflexivity).
  assert (B1 : byteAt tlv (0 + 1) = L) by (rewrite Hshape; reflexivity).
  assert (Bt : byteAt tlv (len ndef + 2) = xfe).
  { rewrite Hshape. unfold byteAt. cbn [app].
    replace (len ndef + 2) with (S (S (len ndef))) by lia. cbn [nth].
    rewrite app_nth2 by (unfold len; lia).
    unfold len. rewrite Nat.sub_diag. reflexivity. }
  assert (Sl : slice tlv 2 (2 + len ndef) = ndef).
  { rewrite Hshape. unfold slice. cbn [app skipn].
    replace (2 + len ndef - 2) with (List.length ndef) by (unfold len; lia).
    rewrite firstn_app, Nat.sub_diag, firstn_all. cbn [firstn].
    apply app_nil_r. }
  unfold TLV.analyzeNDEFStructure.
  destruct (len tlv =? 0)%nat eqn:E; [apply Nat.eqb_eq in E; lia|].
  rewrite tlvFrom_step by lia.
  assert (S0 : TLV.tlvStep tlv 0 false
               = TLV.Continue
                   (if (len ndef =? 0)%nat then TLV.NDEFEmpty
                    else TLV.NDEFMessage L ndef (NDEF.parseNDEFMessage ndef))
                   (len ndef + 2) true).
  { unfold TLV.tlvStep. rewrite B0. cbv iota. rewrite B1, HL.
    destruct (len tlv <=? 0 + 1)%nat eqn:C1; [apply Nat.leb_le in C1; lia|].
    destruct (len ndef =? 0)%nat eqn:C2.
    - apply Nat.eqb_eq in C2. rewrite C2. reflexivity.
    - destruct (len tlv <? 0 + 2 + len ndef)%nat eqn:C3;
        [apply Nat.ltb_lt in C3; lia|].
      cbn [Nat.add]. change (S (S (len ndef))) with (2 + len ndef).
      rewrite Sl. f_equal. lia. }
  rewrite S0, B0.
  change (Z.of_nat (0 / 4)) with 0%Z. rewrite Z.add_0_r.
  change (0 mod 4) with 0.
  f_equal.
  rewrite tlvFrom_step by lia.
  unfold TLV.tlvStep. rewrite Bt. reflexivity.
Qed.

(** X13: what the writer writes, the analysis reads.  For a message of 1 to
    254 bytes, the analysis of the buffer that [writeNDEFToType2] builds
    prints the NDEF entry with the length and the bytes of the message and
    the records read from it, and then the terminator, marked complete, at
    the offset right after the message; the padding is not looked at.  For
    the empty message it prints the empty NDEF entry and the terminator. *)
Theorem analyze_written_tlv (ndef : list byte) (startPage : Z) :
  len ndef <= 254 ->
  TLV.analyzeNDEFStructure (ndefTLV ndef) startPage
  = [ TLV.Entry startPage 0 x03
        (if (len ndef =? 0)%nat then TLV.NDEFEmpty
         else TLV.NDEFMessage (byte_of_int (len ndef)) ndef
                (NDEF.parseNDEFMessage ndef));
      TLV.Entry (startPage + Z.of_nat ((len ndef + 2) / 4)) ((len ndef + 2) mod 4)
        xfe (TLV.Terminator true) ].
Proof.
  intros Hle. apply analyze_ndefTLV. exact Hle.
Qed.

Lemma analyze_written_tlv_witness :
  TLV.analyzeNDEFStructure (ndefTLV [xd0; x00; x00]) 4
  = [ TLV.Entry 4 0 x03
        (TLV.NDEFMessage x03 [xd0; x00; x00] (NDEF.parseNDEFMessage [xd0; x00; x00]));
      TLV.Entry 5 1 xfe (TLV.Terminator true) ].
Proof.
  exact (analyze_written_tlv [xd0; x00; x00] 4 ltac:(cbn; lia)).
Defined.

(** ** Talking to the card *)

Lemma split_status_word (resp : list byte) :
  2 <= len resp ->
  resp = slice resp 0 (len resp - 2)
         ++ [byteAt resp (len resp - 2); byteAt resp (len resp - 1)].
Proof.
  intros H. unfold slice, byteAt, len in *.
  cbn [skipn]. rewrite Nat.sub_0_r.
  set (n := List.length resp - 2).
  rewrite <- (firstn_skipn n resp) at 1. f_equal.
  pose proof (length_skipn n resp) as Hl.
  pose proof (nth_skipn n resp 0 x00) as H0.
  pose proof (nth_skipn n resp 1 x00) as H1.
  destruct (skipn n resp) as [|a [|b [|c r]]]; cbn [List.length] in Hl;
    try (unfold n in Hl; lia).
  cbn [nth] in H0, H1. rewrite H0, H1. f_equal; [f_equal; lia|].
  f_equal. f_equal. unfold n. lia.
Qed.

Section CardProperties.

Variable Card : Type.
Variable cardTransmit : Card -> list byte -> result (list byte) * Card.

(** [transmit] gives data exactly when the card answers with that data
    followed by the status word 90 00. *)
Lemma transmit_ok_iff (apdu : list byte) (w : World Card) (data : list byte) :
  fst (transmit cardTransmit apdu w) = Ok data
  <-> fst (cardTransmit (card w) apdu) = Ok (data ++ [x90; x00]).
Proof.
  unfold transmit, bind, Transmit.
  destruct (cardTransmit (card w) apdu) as [[resp|e] card']; cbn [fst];
    [|split; intros H; discriminate H].
  destruct (len resp <? 2)%nat eqn:C.
  - apply Nat.ltb_lt in C. split; intros H; [discriminate H|].
    injection H as ->. unfold len in C. rewrite length_app in C.
    cbn [List.length] in C. lia.
  - apply Nat.ltb_ge in C.
    destruct (negb (Byte.eqb (byteAt resp (len resp - 2)) x90)
              || negb (Byte.eqb (byteAt resp (len resp - 1)) x00)) eqn:SW;
      cbn [fst ret].
    + split; intros H; [discriminate H|]. exfalso.
      injection H as ->.
      assert (L : len (data ++ [x90; x00]) = List.length data + 2)
        by (unfold len; rewrite length_app; reflexivity).
      rewrite L in SW.
      replace (List.length data + 2 - 2) with (List.length data) in SW by lia.
      replace (List.length data + 2 - 1) with (S (List.length data)) in SW by lia.
      unfold byteAt in SW.
      rewrite !app_nth2 in SW by lia.
      rewrite Nat.sub_diag in SW.
      replace (S (List.length data) - List.length data) with 1 in SW by lia.
      discriminate SW.
    + apply orb_false_iff in SW. destruct SW as [S1 S2].
      apply negb_false_iff, Byte.byte_dec_bl in S1.
      apply negb_false_iff, Byte.byte_dec_bl in S2.
      pose proof (split_status_word resp C) as Hs. rewrite S1, S2 in Hs.
      split; intros H; injection H as H.
      * f_equal. rewrite <- H. exact Hs.
      * subst resp. apply app_inv_tail in Hs. f_equal. now symmetry.
Qed.

(** X14: the answers of the card that [transmit] accepts.  [transmit] sends
    its APDU once and leaves the card in the state this one exchange left
    it in; it gives data exactly when the card answered with that data
    followed by the status word 90 00; an error of the card is passed on
    unchanged, an answer of fewer than 2 bytes is a short response, and any
    other status word is reported with its two bytes. *)
Theorem transmit_answer (apdu : list byte) (w : World Card) :
  let answer := cardTransmit (card w) apdu in
  let out := transmit cardTransmit apdu w in
  card (snd out) = snd answer
  /\ sent (snd out) = sent w ++ [apdu]
  /\ (forall data,
         fst out = Ok data <-> fst answer = Ok (data ++ [x90; x00]))
  /\ (forall e, fst answer = Err e -> fst out = Err e)
  /\ (forall resp, fst answer = Ok resp -> len resp < 2 ->
                   fst out = Err ShortAPDUResponse)
  /\ (forall data sw1 sw2,
         fst answer = Ok (data ++ [sw1; sw2]) ->
         (sw1, sw2) <> (x90, x00) ->
         fst out = Err (APDUFailed sw1 sw2)).
Proof.
  intros answer out.
  split; [|split; [apply transmit_sent|split; [apply transmit_ok_iff|]]].
  - subst out answer. unfold transmit, bind, Transmit.
    destruct (cardTransmit (card w) apdu) as [[resp|e] card']; [|reflexivity].
    destruct (len resp <? 2)%nat; [reflexivity|].
    destruct (negb _ || negb _); reflexivity.
  - subst out answer. unfold transmit, bind, Transmit.
    destruct (cardTransmit (card w) apdu) as [[resp|e] card']; cbn [fst].
    + split; [intros e H; discriminate H|]. split.
      * intros r [= <-] Hlt. apply Nat.ltb_lt in Hlt. rewrite Hlt. reflexivity.
      * intros data sw1 sw2 [= ->] Hsw.
        assert (L : len (data ++ [sw1; sw2]) = List.length data + 2)
          by (unfold len; rewrite length_app; reflexivity).
        rewrite L.
        destruct (List.length data + 2 <? 2)%nat eqn:C;
          [apply Nat.ltb_lt in C; lia|].
        replace (List.length data + 2 - 2) with (List.length data) by lia.
        replace (List.length data + 2 - 1) with (S (List.length data)) by lia.
        unfold byteAt. rewrite !app_nth2 by lia.
        rewrite Nat.sub_diag.
        replace (S (List.length data) - List.length data) with 1 by lia.
        cbn [nth].
        destruct (negb (Byte.eqb sw1 x90) || negb (Byte.eqb sw2 x00)) eqn:SW;
          [reflexivity|].
        apply orb_false_iff in SW. destruct SW as [S1 S2].
        apply negb_false_iff, Byte.byte_dec_bl in S1.
        apply negb_false_iff, Byte.byte_dec_bl in S2.
        subst. now contradiction Hsw.
    + split; [intros e0 [= <-]; reflexivity|].
      split; [intros r H; discriminate H|intros ? ? ? H; discriminate H].
Qed.

(** X15: when a page write succeeds.  [writePage] refuses data that is not
    4 bytes long without sending anything; otherwise it sends the one APDU
    FF D6 00 page 04 data, and it reports no error exactly when the data has
    4 bytes and the card answers this APDU with the status word 90 00. *)
Theorem writePage_success (page : byte) (data : list byte) (w : World Card) :
  (len data <> 4 ->
   writePage cardTransmit page data w = (Some (BadPageLength (len data)), w))
  /\ (len data = 4 ->
      sent (snd (writePage cardTransmit page data w))
      = sent w ++ [[xff; xd6; x00; page; x04] ++ data])
  /\ (fst (writePage cardTransmit page data w) = None
      <-> len data = 4
          /\ exists answer,
               fst (cardTransmit (card w) (writeAPDU page data))
               = Ok (answer ++ [x90; x00])).
Proof.
  split; [|split].
  - intros H. unfold writePage.
    destruct (len data =? 4)%nat eqn:C; [apply Nat.eqb_eq in C; lia|reflexivity].
  - intros H. now apply writePage_sent.
  - unfold writePage.
    destruct (len data =? 4)%nat eqn:C; cbn [negb].
    + apply Nat.eqb_eq in C. unfold bind.
      pose proof (transmit_ok_iff (writeAPDU page data) w) as T.
      destruct (transmit cardTransmit (writeAPDU page data) w) as [[d|e] w'];
        cbn [fst ret] in *.
      * split; [|reflexivity]. intros _. split; [exact C|].
        exists d. now apply T.
      * split; [intros H; discriminate H|].
        intros [_ [d H]]. apply T in H. discriminate H.
    + apply Nat.eqb_neq in C. cbn [fst ret].
      split; [intros H; discriminate H|intros [H _]; contradiction].
Qed.

(** The APDUs that [readPageAlternative] can send for a page, in order. *)
Lemma readPageAlternative_sent (page : byte) (w : World Card) :
  exists n,
    1 <= n <= 3
    /\ sent (snd (readPageAlternative cardTransmit page w))
       = sent w ++ firstn n [readAPDU page; read16APDU page; readNoLengthAPDU page]
    /\ (fst (readPageAlternative cardTransmit page w) = None -> n = 3).
Proof.
  unfold readPageAlternative, bind.
  pose proof (readPage_sent Card cardTransmit page w) as S1.
  destruct (readPage cardTransmit page w) as [[d|e] w1]; cbn [fst snd] in *.
  { exists 1. split; [lia|]. split; [exact S1|intros H; discriminate H]. }
  pose proof (transmit_sent Card cardTransmit (read16APDU page) w1) as S2.
  destruct (transmit cardTransmit (read16APDU page) w1) as [[d|e2] w2];
    cbn [fst snd] in *.
  { exists 2. split; [lia|]. rewrite S1, <- app_assoc in S2.
    destruct (4 <=? len d)%nat; cbn [fst snd ret];
      (split; [exact S2|intros H; discriminate H]). }
  pose proof (transmit_sent Card cardTransmit (readNoLengthAPDU page) w2) as S3.
  exists 3. split; [lia|].
  rewrite S2, S1, <- !app_assoc in S3.
  destruct (transmit cardTransmit (readNoLengthAPDU page) w2) as [[d|e3] w3];
    cbn [fst snd ret] in *; (split; [exact S3|auto]).
Qed.

(** X16: the fallback read.  [readPageAlternative] gives what [readPage]
    gives whenever [readPage] succeeds, and then sends nothing more; it
    sends at most three APDUs, all of them reads of the same page (with
    length 04, with length 10, and without length), each only after the
    one before failed; it fails only after all three; and what the second
    read returns is cut to 4 bytes.  In full: its result and the state it
    leaves are those of the first of the three reads that succeeds, made
    one after the other, or no data in the state after the third read when
    none does; and in the state after the first, second and third read
    exactly one, two and three APDUs were sent. *)
Theorem readPageAlternative_fallback (page : byte) (w : World Card) :
  let out := readPageAlternative cardTransmit page w in
  let r1 := readPage cardTransmit page w in
  let r2 := transmit cardTransmit [xff; xb0; x00; page; x10] (snd r1) in
  let r3 := transmit cardTransmit [xff; xb0; x00; page] (snd r2) in
  (forall data,
      fst (readPage cardTransmit page w) = Ok data ->
      out = (Some data, snd (readPage cardTransmit page w)))
  /\ (exists n,
         1 <= n <= 3
         /\ sent (snd out)
            = sent w ++ firstn n [[xff; xb0; x00; page; x04];
                                  [xff; xb0; x00; page; x10];
                                  [xff; xb0; x00; page]]
         /\ (fst out = None -> n = 3))
  /\ (forall e data,
         fst (readPage cardTransmit page w) = Err e ->
         fst (transmit cardTransmit (read16APDU page)
                (snd (readPage cardTransmit page w))) = Ok data ->
         fst out = Some (firstn 4 data))
  /\ out = match fst r1 with
           | Ok data => (Some data, snd r1)
           | Err _ =>
               match fst r2 with
               | Ok data => (Some (firstn 4 data), snd r2)
               | Err _ =>
                   match fst r3 with
                   | Ok data => (Some data, snd r3)
                   | Err _ => (None, snd r3)
                   end
               end
           end
  /\ sent (snd r1) = sent w ++ [[xff; xb0; x00; page; x04]]
  /\ sent (snd r2) = sent w ++ [[xff; xb0; x00; page; x04];
                                [xff; xb0; x00; page; x10]]
  /\ sent (snd r3) = sent w ++ [[xff; xb0; x00; page; x04];
                                [xff; xb0; x00; page; x10];
                                [xff; xb0; x00; page]].
Proof.
  intros out r1 r2 r3. split; [|split; [|split; [|split; [|split; [|split]]]]].
  - intros data H. subst out. unfold readPageAlternative, bind.
    destruct (readPage cardTransmit page w) as [r w1]. cbn [fst snd] in *.
    now rewrite H.
  - apply readPageAlternative_sent.
  - intros e data H1 H2. subst out. unfold readPageAlternative, bind.
    destruct (readPage cardTransmit page w) as [r w1]. cbn [fst snd] in *.
    rewrite H1.
    destruct (transmit cardTransmit (read16APDU page) w1) as [r2' w2].
    cbn [fst snd] in *. rewrite H2.
    destruct (4 <=? len data)%nat eqn:C; cbn [fst ret].
    + reflexivity.
    + apply Nat.leb_gt in C. f_equal. symmetry.
      apply firstn_all2. unfold len in C. lia.
  - subst out r3 r2 r1. unfold readPageAlternative, bind.
    change [xff; xb0; x00; page; x10] with (read16APDU page).
    change [xff; xb0; x00; page] with (readNoLengthAPDU page).
    destruct (readPage cardTransmit page w) as [[d|e] w1]; cbn [fst snd];
      [reflexivity|].
    destruct (transmit cardTransmit (read16APDU page) w1) as [[d|e2] w2];
      cbn [fst snd].
    + destruct (4 <=? len d)%nat eqn:C.
      * reflexivity.
      * apply Nat.leb_gt in C.
        rewrite firstn_all2 by (unfold len in C; lia). reflexivity.
    + destruct (transmit cardTransmit (readNoLengthAPDU page) w2)
        as [[d|e3] w3]; reflexivity.
  - subst r1. apply (readPage_sent Card cardTransmit page w).
  - subst r2. rewrite transmit_sent. subst r1.
    rewrite (readPage_sent Card cardTransmit page w), <- app_assoc.
    reflexivity.
  - subst r3. rewrite transmit_sent. subst r2. rewrite transmit_sent.
    subst r1.
    rewrite (readPage_sent Card cardTransmit page w), <- !app_assoc.
    reflexivity.
Qed.

End CardProperties.

Lemma transmit_answer_witness :
  fst (transmit scriptedCard [xff; xca; x00; x00; x00]
         (mkWorld [Ok [x04; xa1; x6a; x82]] []))
  = Err (APDUFailed x6a x82)
  /\ fst (transmit scriptedCard [xff; xca; x00; x00; x00]
            (mkWorld [Ok [x90]] []))
     = Err ShortAPDUResponse
  /\ fst (transmit scriptedCard [xff; xca; x00; x00; x00]
            (mkWorld [Err (TransportError 7)] []))
     = Err (TransportError 7).
Proof.
  split; [|split].
  - apply (proj2 (proj2 (proj2 (proj2 (proj2
             (transmit_answer _ scriptedCard [xff; xca; x00; x00; x00]
                (mkWorld [Ok [x04; xa1; x6a; x82]] []))))))
             [x04; xa1] x6a x82).
    + reflexivity.
    + discriminate.
  - apply (proj1 (proj2 (proj2 (proj2 (proj2
             (transmit_answer _ scriptedCard [xff; xca; x00; x00; x00]
                (mkWorld [Ok [x90]] []))))))
             [x90]).
    + reflexivity.
    + cbn. lia.
  - apply (proj1 (proj2 (proj2 (proj2
             (transmit_answer _ scriptedCard [xff; xca; x00; x00; x00]
                (mkWorld [Err (TransportError 7)] [])))))
             (TransportError 7)).
    reflexivity.
Defined.

Lemma writePage_success_witness :
  writePage scriptedCard x04 [x01; x02; x03] (mkWorld [Ok [x90; x00]] [])
  = (Some (BadPageLength 3), mkWorld [Ok [x90; x00]] [])
  /\ sent (snd (writePage scriptedCard x04 [x01; x02; x03; x04]
                  (mkWorld [Ok [x90; x00]] [])))
     = [[xff; xd6; x00; x04; x04; x01; x02; x03; x04]].
Proof.
  split.
  - apply (proj1 (writePage_success _ scriptedCard x04 [x01; x02; x03]
                    (mkWorld [Ok [x90; x00]] []))).
    cbn. lia.
  - apply (proj1 (proj2 (writePage_success _ scriptedCard x04 [x01; x02; x03; x04]
                           (mkWorld [Ok [x90; x00]] [])))).
    reflexivity.
Defined.

Lemma readPageAlternative_fallback_witness :
  readPageAlternative scriptedCard x05
    (mkWorld [Ok [x01; x02; x03; x04; x90; x00]] [])
  = (Some [x01; x02; x03; x04], mkWorld [] [readAPDU x05])
  /\ fst (readPageAlternative scriptedCard x05
            (mkWorld [Err (TransportError 1);
                      Ok [x01; x02; x03; x04; x05; x06; x07; x08; x90; x00]] []))
     = Some [x01; x02; x03; x04]
  /\ readPageAlternative scriptedCard x05
       (mkWorld [Err (TransportError 1);
                 Ok [x01; x02; x03; x04; x05; x06; x07; x08; x90; x00];
                 Ok [x09; x0a; x0b; x0c; x90; x00]] [])
     = (Some [x01; x02; x03; x04],
        mkWorld [Ok [x09; x0a; x0b; x0c; x90; x00]]
                [readAPDU x05; read16APDU x05]).
Proof.
  split; [|split].
  - apply (proj1 (readPageAlternative_fallback _ scriptedCard x05
                    (mkWorld [Ok [x01; x02; x03; x04; x90; x00]] []))).
    reflexivity.
  - apply (proj1 (proj2 (proj2 (readPageAlternative_fallback _ scriptedCard x05
                           (mkWorld [Err (TransportError 1);
                                     Ok [x01; x02; x03; x04; x05; x06; x07; x08;
                                         x90; x00]] []))))
             (TransportError 1) [x01; x02; x03; x04; x05; x06; x07; x08]);
      reflexivity.
  - exact (proj1 (proj2 (proj2 (proj2
             (readPageAlternative_fallback _ scriptedCard x05
                (mkWorld [Err (TransportError 1);
                          Ok [x01; x02; x03; x04; x05; x06; x07; x08; x90; x00];
                          Ok [x09; x0a; x0b; x0c; x90; x00]] [])))))).
Defined.

(** ** What the tools send *)

Section ToolProperties.

Variable Card : Type.
Variable cardTransmit : Card -> list byte -> result (list byte) * Card.

(** X17: the TLV writer keeps to the data area.  Whatever the message and
    whatever the card answers, every APDU that [writeNDEFToType2] sends is
    the write of 4 bytes to a page from 4 to 68: the pages 0 to 3, with the
    UID, the lock bytes and the capability container, are never written,
    and at most 65 pages are. *)
Theorem writeNDEFToType2_pages (ndef : list byte) (w : World Card) :
  exists new : list (list byte),
    sent (snd (writeNDEFToType2 cardTransmit ndef w)) = sent w ++ new
    /\ List.length new <= 65
    /\ forall apdu,
         In apdu new ->
         exists page data,
           apdu = [xff; xd6; x00; page; x04] ++ data
           /\ len data = 4
           /\ (4 <= Byte.to_N page <= 68)%N.
Proof.
  unfold writeNDEFToType2.
  destruct (254 <? len ndef)%nat eqn:C.
  { exists []. cbn [ret snd]. rewrite app_nil_r.
    split; [reflexivity|]. split; [cbn; lia|intros apdu []]. }
  apply Nat.ltb_ge in C.
  pose proof (ndefTLV_shape ndef) as Hs. cbv zeta in Hs.
  destruct Hs as [Hshape [Hpad Hmult]].
  remember (ndefTLV ndef) as tlv eqn:Htlv.
  remember (len tlv - (len ndef + 3)) as pad eqn:Hpd.
  assert (Hlen : len tlv = len ndef + 3 + pad).
  { clear Htlv Hpd. rewrite Hshape. unfold len. cbn [app List.length].
    rewrite length_app. cbn [List.length]. rewrite repeat_length. lia. }
  assert (T : (len tlv + 3) / 4 = len tlv / 4).
  { rewrite Hmult at 1.
    replace (4 * (len tlv / 4) + 3) with (3 + (len tlv / 4) * 4) by lia.
    rewrite Nat.div_add by lia. reflexivity. }
  rewrite T.
  destruct (writePages_sent Card cardTransmit tlv (len tlv / 4) 0 x04 w ltac:(lia))
    as [n [Hn [Hsent _]]].
  exists (map (pageWrite tlv 0 x04) (seq 0 n)).
  split; [exact Hsent|]. split.
  - rewrite length_map, length_seq. lia.
  - intros apdu H. apply in_map_iff in H. destruct H as [k [<- Hk]].
    apply in_seq in Hk.
    exists (Nat.iter k nextPage x04), (slice tlv (0 + 4 * k) (0 + 4 * k + 4)).
    split; [reflexivity|]. split.
    + rewrite slice_length by lia. lia.
    + rewrite iter_nextPage, to_N_byte_of_N.
      change (Byte.to_N x04) with 4%N.
      rewrite N.mod_small by lia. lia.
Qed.

(** X18: the pages of the lock analysis.  For each of the five answers of
    the tag type probe, [analyzeLockBytes] sends only reads: of page 2, and
    for the NTAG types of the page of the dynamic lock bytes (0x2A, 0x82 or
    0xE2) and of the page after it, in this order, whatever the card
    answers.  The line of the static lock bytes is printed exactly when the
    read of page 2 gives 4 bytes, and it shows the bytes 2 and 3 of the
    page with the pages they lock. *)
Theorem analyzeLockBytes_pages (t : TagType) (w : World Card) :
  let out := analyzeLockBytes cardTransmit (tagTypeName t) w in
  sent (snd out) = sent w ++ map readAPDU (lockPages t)
  /\ (forall lock0 lock1 lockedPages,
         In (StaticLockBytes lock0 lock1 lockedPages) (fst out)
         <-> exists pg2,
               fst (readPage cardTransmit x02 w) = Ok pg2
               /\ len pg2 = 4
               /\ lock0 = byteAt pg2 2 /\ lock1 = byteAt pg2 3
               /\ lockedPages = Lock.lockedPages lock0 lock1).
Proof.
  intros out. subst out. unfold analyzeLockBytes, bind.
  pose proof (readPage_sent Card cardTransmit x02 w) as S1.
  destruct (readPage cardTransmit x02 w) as [pg2 w1]. cbn [fst snd] in *.
  set (static := match pg2 with
                 | Ok pg3 =>
                     if (len pg3 =? 4)%nat
                     then [StaticLockBytes (byteAt pg3 2) (byteAt pg3 3)
                             (Lock.lockedPages (byteAt pg3 2) (byteAt pg3 3))]
                     else []
                 | Err _ => []
                 end).
  assert (Hstatic : forall lock0 lock1 lockedPages,
             In (StaticLockBytes lock0 lock1 lockedPages) static
             <-> exists pg,
                   pg2 = Ok pg /\ len pg = 4
                   /\ lock0 = byteAt pg 2 /\ lock1 = byteAt pg 3
                   /\ lockedPages = Lock.lockedPages lock0 lock1).
  { intros lock0 lock1 lockedPages. unfold static.
    destruct pg2 as [pg|e].
    - destruct (len pg =? 4)%nat eqn:C.
      + apply Nat.eqb_eq in C. cbn [In]. split.
        * intros [[= <- <- <-]|[]]. exists pg. auto.
        * intros [pg' [[= <-] [_ [-> [-> ->]]]]]. now left.
      + apply Nat.eqb_neq in C. cbn [In]. split; [intros []|].
        intros [pg' [[= <-] [H _]]]. contradiction.
    - cbn [In]. split; [intros []|]. intros [pg' [H _]]. discriminate H. }
  assert (Hother : forall (dynamic configuration : list LockLine) lock0 lock1 lockedPages,
             (forall l, In l dynamic ->
                        match l with StaticLockBytes _ _ _ => False | _ => True end) ->
             (forall l, In l configuration ->
                        match l with StaticLockBytes _ _ _ => False | _ => True end) ->
             (In (StaticLockBytes lock0 lock1 lockedPages)
                 (static ++ dynamic ++ configuration)
              <-> In (StaticLockBytes lock0 lock1 lockedPages) static)).
  { intros dynamic configuration lock0 lock1 lockedPages Hd Hc.
    rewrite !in_app_iff. split; [|tauto].
    intros [H|[H|H]]; [exact H|apply Hd in H; contradiction
                      |apply Hc in H; contradiction]. }
  assert (Hntag : forall dynamicLockPage,
             let r := (let (a, w') := readPage cardTransmit dynamicLockPage w1 in
                 let (a0, w'0) := readPage cardTransmit (nextPage dynamicLockPage) w' in
                 ret
                   (static ++
                    match a with
                    | Ok dynLock => [DynamicLockBytes dynamicLockPage dynLock]
                    | Err _ => []
                    end ++
                    match a0 with
                    | Ok cfg =>
                        ConfigurationPage (nextPage dynamicLockPage) cfg
                        :: (if (4 <=? len cfg)%nat
                            then
                             [ConfigurationFields (byteAt cfg 0)
                                (byteAt cfg 1) (byteAt cfg 2)
                                (byteAt cfg 3)
                                (if (byteAt cfg 3 =? xff)%byte
                                 then None
                                 else Some (int_of_byte (byteAt cfg 3)))]
                            else [])
                    | Err _ => []
                    end) w'0) in
             sent (snd r)
             = sent w ++ map readAPDU [x02; dynamicLockPage; nextPage dynamicLockPage]
             /\ (forall lock0 lock1 lockedPages,
                    In (StaticLockBytes lock0 lock1 lockedPages) (fst r)
                    <-> In (StaticLockBytes lock0 lock1 lockedPages) static)).
  { intros dynamicLockPage.
    pose proof (readPage_sent Card cardTransmit dynamicLockPage w1) as S2.
    destruct (readPage cardTransmit dynamicLockPage w1) as [a w2].
    cbn [fst snd] in *.
    pose proof (readPage_sent Card cardTransmit (nextPage dynamicLockPage) w2) as S3.
    destruct (readPage cardTransmit (nextPage dynamicLockPage) w2) as [a0 w3].
    cbn [fst snd ret] in *. split.
    - rewrite S3, S2, S1, <- !app_assoc. reflexivity.
    - intros lock0 lock1 lockedPages. apply Hother.
      + intros l H. destruct a; [|destruct H].
        destruct H as [<-|[]]. exact I.
      + intros l H. destruct a0; [|destruct H].
        destruct H as [<-|H]; [exact I|].
        destruct (4 <=? len a0)%nat; [|destruct H].
        destruct H as [<-|[]]. exact I. }
  destruct t; cbn [tagTypeName lockPages].
  - change (Contains "NTAG213" "NTAG") with true.
    change (String.eqb "NTAG213" "NTAG215") with false.
    change (String.eqb "NTAG213" "NTAG216") with false.
    cbv iota. destruct (Hntag x2a) as [H1 H2].
    split; [exact H1|]. intros. rewrite H2. apply Hstatic.
  - change (Contains "NTAG215" "NTAG") with true.
    change (String.eqb "NTAG215" "NTAG215") with true.
    cbv iota. destruct (Hntag x82) as [H1 H2].
    split; [exact H1|]. intros. rewrite H2. apply Hstatic.
  - change (Contains "NTAG216" "NTAG") with true.
    change (String.eqb "NTAG216" "NTAG215") with false.
    change (String.eqb "NTAG216" "NTAG216") with true.
    cbv iota. destruct (Hntag xe2) as [H1 H2].
    split; [exact H1|]. intros. rewrite H2. apply Hstatic.
  - change (Contains "Type2-compatible" "NTAG") with false.
    cbv iota. cbn [ret fst snd]. split; [exact S1|apply Hstatic].
  - change (Contains "unknown" "NTAG") with false.
    cbv iota. cbn [ret fst snd]. split; [exact S1|apply Hstatic].
Qed.

End ToolProperties.

Lemma writeNDEFToType2_pages_witness :
  exists page data,
    [xff; xd6; x00; x04; x04; x03; x01; xd0; xfe] = [xff; xd6; x00; page; x04] ++ data
    /\ len data = 4
    /\ (4 <= Byte.to_N page <= 68)%N.
Proof.
  destruct (writeNDEFToType2_pages _ scriptedCard [xd0]
              (mkWorld [Ok [x90; x00]] [])) as [new [Hs [_ H]]].
  apply H. vm_compute in Hs. rewrite <- Hs. left. reflexivity.
Defined.

Lemma analyzeLockBytes_pages_witness :
  In (StaticLockBytes x01 x00 ["3"])
     (fst (analyzeLockBytes scriptedCard "NTAG215"
             (mkWorld [Ok [xee; x48; x01; x00; x90; x00]] []))).
Proof.
  apply (proj2 (proj2 (analyzeLockBytes_pages _ scriptedCard NTAG215
                         (mkWorld [Ok [xee; x48; x01; x00; x90; x00]] []))
                  x01 x00 ["3"])).
  exists [xee; x48; x01; x00]. repeat split.
Defined.

(** ** One tag through the writer tool *)

Section WorkflowProperties.

Variable Card : Type.
Variable cardTransmit : Card -> list byte -> result (list byte) * Card.

(** A formatting that succeeds has sent its three writes. *)
Lemma formatType2Tag_sent_ok (w : World Card) :
  fst (formatType2Tag cardTransmit w) = None ->
  sent (snd (formatType2Tag cardTransmit w))
  = sent w ++ [writeAPDU x02 [x00; x00; x00; x00];
               writeAPDU x03 [xe1; x10; x3f; x00];
               writeAPDU x04 [x00; x00; x00; xfe]].
Proof.
  unfold formatType2Tag, bind, lockBytes, cc, clearData.
  pose proof (writePage_sent Card cardTransmit x02 [x00; x00; x00; x00] w eq_refl)
    as S1.
  destruct (writePage cardTransmit x02 [x00; x00; x00; x00] w) as [[e1|] w1];
    cbn [fst snd] in *; [intros H; discriminate H|].
  pose proof (writePage_sent Card cardTransmit x03 [xe1; x10; x3f; x00] w1 eq_refl)
    as S2.
  destruct (writePage cardTransmit x03 [xe1; x10; x3f; x00] w1) as [[e2|] w2];
    cbn [fst snd] in *; [intros H; discriminate H|].
  pose proof (writePage_sent Card cardTransmit x04 [x00; x00; x00; xfe] w2 eq_refl)
    as S3.
  destruct (writePage cardTransmit x04 [x00; x00; x00; xfe] w2) as [[e3|] w3];
    cbn [fst snd ret] in *; [intros H; discriminate H|].
  intros _. rewrite S3, S2, S1, <- !app_assoc. reflexivity.
Qed.

(** A TLV write that succeeds was for a message of at most 254 bytes and
    has sent all the pages of its buffer. *)
Lemma writeNDEFToType2_sent_ok (ndef : list byte) (w : World Card) :
  fst (writeNDEFToType2 cardTransmit ndef w) = None ->
  len ndef <= 254
  /\ sent (snd (writeNDEFToType2 cardTransmit ndef w))
     = sent w ++ map (fun k => writeAPDU (byte_of_int (4 + k))
                                 (slice (ndefTLV ndef) (4 * k) (4 * k + 4)))
                     (seq 0 (len (ndefTLV ndef) / 4)).
Proof.
  unfold writeNDEFToType2.
  destruct (254 <? len ndef)%nat eqn:C; [intros H; discriminate H|].
  apply Nat.ltb_ge in C. intros H. split; [exact C|].
  destruct (ndefTLV_shape ndef) as [_ [_ Hmult]].
  assert (T : (len (ndefTLV ndef) + 3) / 4 = len (ndefTLV ndef) / 4).
  { rewrite Hmult at 1.
    replace (4 * (len (ndefTLV ndef) / 4) + 3)
      with (3 + (len (ndefTLV ndef) / 4) * 4) by lia.
    rewrite Nat.div_add by lia. reflexivity. }
  rewrite T in *.
  destruct (writePages_sent Card cardTransmit (ndefTLV ndef)
              (len (ndefTLV ndef) / 4) 0 x04 w ltac:(lia)) as [n [_ [Hs Hf]]].
  rewrite Hs, (Hf H). f_equal. apply map_ext. intros k.
  unfold pageWrite, byte_of_int. rewrite iter_nextPage.
  change (Byte.to_N x04) with 4%N.
  replace (4 + N.of_nat k)%N with (N.of_nat (4 + k)) by lia.
  reflexivity.
Qed.

(** X19: a tag that went through the writer tool.  When the tool reports
    that it wrote a URL, the URL is "https://dnd.qrand.me/r/" followed by
    the UID that the card gave, in upper case hexadecimal; the APDUs sent
    are the request of the UID, the three writes of the formatter, and the
    writes, page by page from page 4 on, of the TLV buffer of the record of
    the URL, and nothing else; and the analysis of this buffer shows one
    NDEF message, closed by the terminator, whose one record is shown as
    this URL. *)
Theorem processTag_wrote (w : World Card) (uidHex fullURL : string) :
  fst (processTag cardTransmit w) = WroteURL uidHex fullURL ->
  let ndef := URI.buildURIRecord fullURL in
  let tlv := ndefTLV ndef in
  (exists uid, fst (getUID cardTransmit w) = Ok uid
               /\ uidHex = ToUpper (EncodeToString uid))
  /\ fullURL = ("https://dnd.qrand.me/r/" ++ uidHex)%string
  /\ sent (snd (processTag cardTransmit w))
     = sent w
       ++ [[xff; xca; x00; x00; x00];
           writeAPDU x02 [x00; x00; x00; x00];
           writeAPDU x03 [xe1; x10; x3f; x00];
           writeAPDU x04 [x00; x00; x00; xfe]]
       ++ map (fun k => writeAPDU (byte_of_int (4 + k))
                          (slice tlv (4 * k) (4 * k + 4)))
              (seq 0 (len tlv / 4))
  /\ List.concat (map (fun k => slice tlv (4 * k) (4 * k + 4))
                      (seq 0 (len tlv / 4))) = tlv
  /\ TLV.analyzeNDEFStructure tlv 4
     = [ TLV.Entry 4 0 x03
           (TLV.NDEFMessage (byte_of_int (len ndef)) ndef
              (NDEF.parseNDEFMessage ndef));
         TLV.Entry (4 + Z.of_nat ((len ndef + 2) / 4)) ((len ndef + 2) mod 4)
           xfe (TLV.Terminator true) ]
  /\ map NDEF.recordURI (NDEF.parseNDEFMessage ndef) = [Some fullURL].
Proof.
  unfold processTag, bind, getUID.
  pose proof (transmit_sent Card cardTransmit uidAPDU w) as S1.
  destruct (transmit cardTransmit uidAPDU w) as [[uid|e0] w1];
    cbn [fst snd ret] in *; [|intros H; discriminate H].
  pose proof (formatType2Tag_sent_ok w1) as S2.
  destruct (formatType2Tag cardTransmit w1) as [[e1|] w2];
    cbn [fst snd ret] in *; [intros H; discriminate H|].
  specialize (S2 eq_refl).
  set (url := ("https://dnd.qrand.me/r/" ++ ToUpper (EncodeToString uid))%string).
  pose proof (writeNDEFToType2_sent_ok (URI.buildURIRecord url) w2) as S3.
  destruct (writeNDEFToType2 cardTransmit (URI.buildURIRecord url) w2)
    as [[e2|] w3]; cbn [fst snd ret] in *; [intros H; discriminate H|].
  destruct (S3 eq_refl) as [Hle S3'].
  intros [= <- <-].
  assert (Hrec : len (URI.buildURIRecord url) = 4 + len (URI.uriPayload url)).
  { unfold URI.buildURIRecord, len. cbn [app List.length]. lia. }
  assert (Hpay : URI.uriPayload url
                 = x04 :: list_byte_of_string
                            ("dnd.qrand.me/r/" ++ ToUpper (EncodeToString uid))).
  { unfold URI.uriPayload, url.
    replace (TrimPrefix ("https://dnd.qrand.me/r/" ++ ToUpper (EncodeToString uid))
               "http://")
      with ("https://"
            ++ ("dnd.qrand.me/r/" ++ ToUpper (EncodeToString uid)))%string
      by reflexivity.
    rewrite TrimPrefix_append. reflexivity. }
  split; [exists uid; split; reflexivity|].
  split; [reflexivity|]. split.
  - rewrite S3', S2, S1, <- !app_assoc. reflexivity.
  - split.
    + destruct (ndefTLV_shape (URI.buildURIRecord url)) as [_ [_ Hmult]].
      rewrite pages_concat by lia. rewrite <- Hmult. apply firstn_all.
    + split.
      * rewrite analyze_ndefTLV by exact Hle.
        destruct (len (URI.buildURIRecord url) =? 0)%nat eqn:C;
          [apply Nat.eqb_eq in C; lia|reflexivity].
      * rewrite parse_buildURIRecord by lia.
        cbn [map]. f_equal.
        change (URI.decodeURI (URI.uriPayload url) = Some url).
        rewrite Hpay. apply decodeURI_https.
Qed.

End WorkflowProperties.

Lemma processTag_wrote_witness :
  map NDEF.recordURI
    (NDEF.parseNDEFMessage (URI.buildURIRecord "https://dnd.qrand.me/r/04A1B2C3"))
  = [Some "https://dnd.qrand.me/r/04A1B2C3"].
Proof.
  apply (proj2 (proj2 (proj2 (proj2 (proj2
           (processTag_wrote _ scriptedCard
              (mkWorld (Ok [x04; xa1; xb2; xc3; x90; x00]
                        :: repeat (Ok [x90; x00]) 11) [])
              "04A1B2C3" "https://dnd.qrand.me/r/04A1B2C3"
              ltac:(vm_compute; reflexivity))))))).
Defined.

(** ** Reading the data area *)

Lemma goodScan_single (page : byte) (turns : nat) (acc : list byte)
    (l : PageLine) :
  linePage l = page ->
  goodScan page (S turns) acc [l] (acc ++ lineData l).
Proof.
  intros Hp. unfold goodScan. cbn [map List.concat List.length seq].
  rewrite app_nil_r. split; [reflexivity|].
  split; [now rewrite Hp|]. split; [lia|].
  intros pre l0 post H Hpost.
  destruct pre as [|a pre]; cbn [app] in H; injection H as _ H.
  - congruence.
  - destruct pre; discriminate H.
Qed.

Lemma goodScan_cons (page : byte) (turns : nat) (acc : list byte)
    (l : PageLine) (lines : list PageLine) (data : list byte) :
  goodScan (nextPage page) turns (acc ++ lineData l) lines data ->
  linePage l = page ->
  hasTerminator (lineData l) = false ->
  (forall p e, l <> PageFailed p e true) ->
  goodScan page (S turns) acc (l :: lines) data.
Proof.
  intros [Hd [Hp [Hl Hlast]]] Hpage Hterm Hfail. unfold goodScan.
  split; [|split; [|split]].
  - cbn [map List.concat]. now rewrite app_assoc.
  - cbn [map List.length seq]. rewrite Hpage, Hp. f_equal.
    rewrite <- seq_shift, map_map. apply map_ext. intros k.
    now rewrite Nat.iter_succ_r.
  - cbn [List.length]. lia.
  - intros pre l0 post H Hpost.
    destruct pre as [|a pre]; cbn [app] in H; injection H as <- H.
    + split; assumption.
    + now apply (Hlast pre l0 post).
Qed.

Section ScanProperties.

Variable Card : Type.
Variable cardTransmit : Card -> list byte -> result (list byte) * Card.

Lemma onlyReads_trans (w1 w2 w3 : World Card) :
  onlyReads w1 w2 -> onlyReads w2 w3 -> onlyReads w1 w3.
Proof.
  intros H12 H23 apdu H. destruct (H23 apdu H) as [H'|H']; [|now right].
  now apply H12.
Qed.

Lemma onlyReads_readPage (page : byte) (w : World Card) :
  onlyReads w (snd (readPage cardTransmit page w)).
Proof.
  intros apdu H. rewrite readPage_sent in H.
  apply in_app_iff in H. destruct H as [H|[<-|[]]]; [now left|now right].
Qed.

Lemma onlyReads_readPageAlternative (page : byte) (w : World Card) :
  onlyReads w (snd (readPageAlternative cardTransmit page w)).
Proof.
  intros apdu H.
  destruct (readPageAlternative_sent Card cardTransmit page w) as [n [Hn [Hs _]]].
  rewrite Hs in H. apply in_app_iff in H. destruct H as [H|H]; [now left|].
  right. destruct n as [|[|[|[|n]]]]; try lia; cbn [firstn In] in H.
  - destruct H as [<-|[]]; reflexivity.
  - destruct H as [<-|[<-|[]]]; reflexivity.
  - destruct H as [<-|[<-|[<-|[]]]]; reflexivity.
Qed.

(** The loop sends only reads and keeps [goodScan]. *)
Lemma readDataArea_good :
  forall turns maxPage page ce acc (w : World Card),
    onlyReads w (snd (readDataArea cardTransmit turns maxPage page ce acc w))
    /\ goodScan page turns acc
         (fst (fst (readDataArea cardTransmit turns maxPage page ce acc w)))
         (snd (fst (readDataArea cardTransmit turns maxPage page ce acc w))).
Proof.
  induction turns as [|turns IH]; intros maxPage page ce acc w.
    { cbn [readDataArea ret fst snd]. split.
      - intros apdu H. now left.
      - unfold goodScan. cbn. rewrite app_nil_r.
        split; [reflexivity|]. split; [reflexivity|]. split; [lia|].
        intros pre l post H. destruct pre; discriminate H. }
    cbn [readDataArea]. unfold bind.
    pose proof (onlyReads_readPage page w) as R1.
    destruct (readPage cardTransmit page w) as [[data|e] w1]; cbn [fst snd] in *.
    - destruct (hasTerminator data) eqn:T.
      + cbn [ret fst snd]. split; [exact R1|].
        exact (goodScan_single page turns acc (PageRead page data) eq_refl).
      + destruct (IH maxPage (nextPage page) 0 (acc ++ data) w1) as [R2 Gs].
        destruct (readDataArea cardTransmit turns maxPage (nextPage page) 0
                    (acc ++ data) w1) as [[lines gathered] w2].
        cbn [ret fst snd] in *. split; [exact (onlyReads_trans _ _ _ R1 R2)|].
        apply (goodScan_cons page turns acc (PageRead page data));
          [exact Gs|reflexivity|exact T|intros p e0 H; discriminate H].
    - pose proof (onlyReads_readPageAlternative page w1) as R2.
      destruct (readPageAlternative cardTransmit page w1) as [[altData|] w2];
        cbn [fst snd] in *.
      + destruct (hasTerminator altData) eqn:T.
        * cbn [ret fst snd]. split; [exact (onlyReads_trans _ _ _ R1 R2)|].
          exact (goodScan_single page turns acc (PageAlternative page e altData)
                   eq_refl).
        * destruct (IH maxPage (nextPage page) 0 (acc ++ altData) w2) as [R3 Gs].
          destruct (readDataArea cardTransmit turns maxPage (nextPage page) 0
                      (acc ++ altData) w2) as [[lines gathered] w3].
          cbn [ret fst snd] in *.
          split; [exact (onlyReads_trans _ _ _ (onlyReads_trans _ _ _ R1 R2) R3)|].
          apply (goodScan_cons page turns acc (PageAlternative page e altData));
            [exact Gs|reflexivity|exact T|intros p e0 H; discriminate H].
      + destruct ((3 <=? ce + 1)%nat
                  || (Byte.to_N (byte_of_N (Byte.to_N maxPage + 251))
                      <? Byte.to_N page)%N).
        * cbn [ret fst snd]. split; [exact (onlyReads_trans _ _ _ R1 R2)|].
          pose proof (goodScan_single page turns acc (PageFailed page e true)
                        eq_refl) as Gs.
          cbn [lineData] in Gs. now rewrite app_nil_r in Gs.
        * destruct (IH maxPage (nextPage page) (ce + 1) acc w2) as [R3 Gs].
          destruct (readDataArea cardTransmit turns maxPage (nextPage page)
                      (ce + 1) acc w2) as [[lines gathered] w3].
          cbn [ret fst snd] in *.
          split; [exact (onlyReads_trans _ _ _ (onlyReads_trans _ _ _ R1 R2) R3)|].
          apply (goodScan_cons page turns acc (PageFailed page e false));
            [|reflexivity|reflexivity|intros p e0 H; discriminate H].
          cbn [lineData]. now rewrite app_nil_r.
Qed.

(** X20: the scan of the data area.  Whatever the card answers, the loop of
    [readFullTag] over the pages of the data area sends only reads; its
    lines are for consecutive pages from the first one on, at most one per
    page up to the last page; the bytes it gathers for the analysis are the
    bytes of these lines in order; and a page with a byte 0xFE anywhere in
    it is the last page read: no page after it is gathered, whether or not
    this byte was a terminator TLV. *)
Theorem readDataArea_scan :
  forall (turns : nat) (maxPage page : byte) (consecutiveErrors : nat)
         (allNDEFData : list byte) (w : World Card),
    let out := readDataArea cardTransmit turns maxPage page consecutiveErrors
                 allNDEFData w in
    let lines := fst (fst out) in
    onlyReads w (snd out)
    /\ snd (fst out) = allNDEFData ++ List.concat (map lineData lines)
    /\ map linePage lines
       = map (fun k => Nat.iter k nextPage page) (seq 0 (List.length lines))
    /\ List.length lines <= turns
    /\ (forall pre l post,
           lines = pre ++ l :: post -> post <> [] ->
           hasTerminator (lineData l) = false
           /\ forall p e, l <> PageFailed p e true).
Proof.
  intros turns maxPage page ce acc w out lines.
  destruct (readDataArea_good turns maxPage page ce acc w) as [R Gs].
  split; [exact R|exact Gs].
Qed.

Lemma lineReads_readOf (l : PageLine) (reads : list (list byte))
    (apdu : list byte) :
  lineReads l reads -> In apdu reads -> readOf apdu (linePage l).
Proof.
  unfold readOf. destruct l as [p d|p e d|p e b]; cbn [lineReads linePage].
  - intros -> [<-|[]]. now left.
  - intros [n [Hn ->]] [<-|H]; [now left|].
    destruct n as [|[|[|[|n]]]]; try lia; cbn [firstn In] in H.
    + destruct H as [<-|[]]. now left.
    + destruct H as [<-|[<-|[]]]; [now left|right; now left].
    + destruct H as [<-|[<-|[<-|[]]]]; [now left|right; now left|right; now right].
  - intros -> [<-|[<-|[<-|[<-|[]]]]];
      [now left|now left|right; now left|right; now right].
Qed.

Lemma Forall2_In_r {A B : Type} (P : A -> B -> Prop) (xs : list A)
    (ys : list B) (y : B) :
  Forall2 P xs ys -> In y ys -> exists x, In x xs /\ P x y.
Proof.
  induction 1 as [|x y0 xs ys Hxy _ IH]; intros H; [contradiction|].
  destruct H as [<-|H].
  - exists x. split; [now left|exact Hxy].
  - destruct (IH H) as [x' [Hin Hp]]. exists x'. split; [now right|exact Hp].
Qed.

(** The reads of the loop, line by line: what the loop sends is, for each
    of its lines in order, the reads of that line, and nothing else. *)
Lemma readDataArea_reads :
  forall turns maxPage page ce acc (w : World Card),
    exists groups,
      Forall2 lineReads
        (fst (fst (readDataArea cardTransmit turns maxPage page ce acc w)))
        groups
      /\ sent (snd (readDataArea cardTransmit turns maxPage page ce acc w))
         = sent w ++ List.concat groups.
Proof.
  induction turns as [|turns IH]; intros maxPage page ce acc w.
  { exists []. cbn [readDataArea ret fst snd List.concat].
    split; [constructor|now rewrite app_nil_r]. }
  cbn [readDataArea]. unfold bind.
  pose proof (readPage_sent Card cardTransmit page w) as S1.
  destruct (readPage cardTransmit page w) as [[data|e] w1]; cbn [fst snd] in *.
  - destruct (hasTerminator data).
    + exists [[readAPDU page]]. cbn [ret fst snd List.concat app].
      split; [|exact S1]. constructor; [reflexivity|constructor].
    + destruct (IH maxPage (nextPage page) 0 (acc ++ data) w1)
        as [groups [Hg Hs]].
      destruct (readDataArea cardTransmit turns maxPage (nextPage page) 0
                  (acc ++ data) w1) as [[lines gathered] w2].
      cbn [ret fst snd] in *.
      exists ([readAPDU page] :: groups). split.
      * constructor; [reflexivity|exact Hg].
      * rewrite Hs, S1, <- app_assoc. reflexivity.
  - destruct (readPageAlternative_sent Card cardTransmit page w1)
      as [n [Hn [S2 Hnone]]].
    rewrite S1, <- app_assoc in S2.
    destruct (readPageAlternative cardTransmit page w1) as [[altData|] w2];
      cbn [fst snd] in *.
    + assert (Hl : lineReads (PageAlternative page e altData)
                     ([readAPDU page]
                      ++ firstn n [readAPDU page; read16APDU page;
                                   readNoLengthAPDU page])).
      { exists n. split; [exact Hn|reflexivity]. }
      destruct (hasTerminator altData).
      * exists [[readAPDU page]
                ++ firstn n [readAPDU page; read16APDU page;
                             readNoLengthAPDU page]].
        cbn [ret fst snd List.concat]. rewrite app_nil_r.
        split; [|exact S2]. constructor; [exact Hl|constructor].
      * destruct (IH maxPage (nextPage page) 0 (acc ++ altData) w2)
          as [groups [Hg Hs]].
        destruct (readDataArea cardTransmit turns maxPage (nextPage page) 0
                    (acc ++ altData) w2) as [[lines gathered] w3].
        cbn [ret fst snd] in *.
        exists (([readAPDU page]
                 ++ firstn n [readAPDU page; read16APDU page;
                              readNoLengthAPDU page]) :: groups).
        split.
        -- constructor; [exact Hl|exact Hg].
        -- rewrite Hs, S2. cbn [List.concat]. now rewrite <- app_assoc.
    + rewrite (Hnone eq_refl) in S2. cbn [firstn app] in S2.
      destruct ((3 <=? ce + 1)%nat
                || (Byte.to_N (byte_of_N (Byte.to_N maxPage + 251))
                    <? Byte.to_N page)%N).
      * exists [[readAPDU page; readAPDU page; read16APDU page;
                 readNoLengthAPDU page]].
        cbn [ret fst snd List.concat]. rewrite app_nil_r.
        split; [|exact S2]. constructor; [reflexivity|constructor].
      * destruct (IH maxPage (nextPage page) (ce + 1) acc w2)
          as [groups [Hg Hs]].
        destruct (readDataArea cardTransmit turns maxPage (nextPage page)
                    (ce + 1) acc w2) as [[lines gathered] w3].
        cbn [ret fst snd] in *.
        exists ([readAPDU page; readAPDU page; read16APDU page;
                 readNoLengthAPDU page] :: groups).
        split.
        -- constructor; [reflexivity|exact Hg].
        -- rewrite Hs, S2. cbn [List.concat]. now rewrite <- app_assoc.
Qed.

(** The pages of the lines of the loop run for a tag type. *)
Lemma readDataPages_line_pages (t : TagType) (w : World Card) (l : PageLine) :
  In l (fst (fst (readDataPages cardTransmit (tagTypeName t) w))) ->
  (4 <= Byte.to_N (linePage l) <= Byte.to_N (maxPageOf (tagTypeName t)))%N.
Proof.
  unfold readDataPages. intros H.
  set (maxPage := maxPageOf (tagTypeName t)) in *.
  destruct (readDataArea_good (int_of_byte maxPage - 3) maxPage x04 0 [] w)
    as [_ [_ [Hp [Hl _]]]].
  apply (in_map linePage) in H. rewrite Hp in H.
  apply in_map_iff in H. destruct H as [k [<- Hk]]. apply in_seq in Hk.
  rewrite iter_nextPage, to_N_byte_of_N.
  change (Byte.to_N x04) with 4%N.
  assert (M : In maxPage [x2c; x86; xe7; x10]).
  { unfold maxPage. destruct t; vm_compute; tauto. }
  assert (B : (N.of_nat k + 4 <= Byte.to_N maxPage)%N).
  { assert (E : int_of_byte maxPage = N.to_nat (Byte.to_N maxPage))
      by reflexivity.
    lia. }
  pose proof (Byte.to_N_bounded maxPage).
  rewrite N.mod_small by lia. lia.
Qed.

(** X23: the loop of [readFullTag] over the data pages stays in the data
    area of the tag type.  For each of the five answers of the tag type
    probe, the last page is 0x2C, 0x86 or 0xE7 for the NTAG types and 0x10
    otherwise; the lines of the loop, whose data is gathered for the
    analysis, are for pages from 4 to the last page; and what the loop
    sends to the card is, line by line and in order, the reads of the page
    of that line and nothing else, so that every APDU it sends is a read
    (with length 04, with length 10, or without length) of a page from 4
    to the last page: within this loop the pages 0 to 3 are not read, and
    no page above the last one is asked for.  (The scan of the whole
    memory that [readFullTag] makes afterwards when this loop gathered no
    byte, from page 0 on, is a different loop and is not part of
    [readDataPages].) *)
Theorem readDataPages_range (t : TagType) (w : World Card) :
  let maxPage := maxPageOf (tagTypeName t) in
  let out := readDataPages cardTransmit (tagTypeName t) w in
  let lines := fst (fst out) in
  In maxPage [x2c; x86; xe7; x10]
  /\ (forall l, In l lines ->
                (4 <= Byte.to_N (linePage l) <= Byte.to_N maxPage)%N)
  /\ exists groups,
       Forall2 lineReads lines groups
       /\ sent (snd out) = sent w ++ List.concat groups
       /\ forall apdu,
            In apdu (List.concat groups) ->
            exists page,
              (4 <= Byte.to_N page <= Byte.to_N maxPage)%N
              /\ (apdu = [xff; xb0; x00; page; x04]
                  \/ apdu = [xff; xb0; x00; page; x10]
                  \/ apdu = [xff; xb0; x00; page]).
Proof.
  intros maxPage out lines. split; [|split].
  - unfold maxPage. destruct t; vm_compute; tauto.
  - intros l H. exact (readDataPages_line_pages t w l H).
  - destruct (readDataArea_reads (int_of_byte maxPage - 3) maxPage x04 0 [] w)
      as [groups [Hg Hs]].
    exists groups. split; [exact Hg|]. split; [exact Hs|].
    intros apdu H. apply in_concat in H. destruct H as [g [Hin Ha]].
    destruct (Forall2_In_r _ _ _ _ Hg Hin) as [l [Hl Hr]].
    exists (linePage l). split.
    + exact (readDataPages_line_pages t w l Hl).
    + exact (lineReads_readOf _ _ _ Hr Ha).
Qed.

End ScanProperties.

Lemma readDataArea_scan_witness :
  hasTerminator [x03; x02; xd0; x00] = false
  /\ forall p e, PageRead x04 [x03; x02; xd0; x00] <> PageFailed p e true.
Proof.
  apply (proj2 (proj2 (proj2 (proj2
           (readDataArea_scan _ scriptedCard 13 x10 x04 0 []
              (mkWorld [Ok [x03; x02; xd0; x00; x90; x00];
                        Ok [x00; xfe; x00; x00; x90; x00]] [])))))
           [] (PageRead x04 [x03; x02; xd0; x00])
           [PageRead x05 [x00; xfe; x00; x00]]).
  - reflexivity.
  - discriminate.
Defined.

(** ** Records that the writer does not make *)

(** X21: a record whose payload is cut short.  For a short record of type
    'U' without ID whose length byte announces more payload than the buffer
    holds, the parser still reports the record, with the bytes that are
    there as its partial payload and, when there is at least one, with the
    URI read from them; it reports nothing after it. *)
Theorem parse_truncated_payload (h payloadLen : byte) (partial : list byte) :
  NDEF.sr (NDEF.decodeHeader h) = true ->
  NDEF.il (NDEF.decodeHeader h) = false ->
  len partial < int_of_byte payloadLen ->
  NDEF.parseNDEFMessage (h :: x01 :: payloadLen :: x55 :: partial)
  = [ {| NDEF.recordNum := 1;
         NDEF.flags := NDEF.decodeHeader h;
         NDEF.body :=
           NDEF.PayloadExceeds x01 (Byte.to_N payloadLen) x00 [x55] []
             (len partial) partial
             (if (0 <? len partial)%nat
              then NDEF.URIPayload (URI.parseURIPayload partial)
              else NDEF.NotParsed) |} ].
Proof.
  intros Hsr Hil Hlt.
  set (data := h :: x01 :: payloadLen :: x55 :: partial).
  assert (Hlen : len data = S (S (S (S (len partial))))) by reflexivity.
  assert (R : NDEF.parseRecord data 0
              = (NDEF.PayloadExceeds x01 (Byte.to_N payloadLen) x00 [x55] []
                   (len partial) partial
                   (if (0 <? len partial)%nat
                    then NDEF.URIPayload (URI.parseURIPayload partial)
                    else NDEF.NotParsed), None)).
  { unfold NDEF.parseRecord. rewrite Hlen.
    change (byteAt data 0) with h.
    change (byteAt data (0 + 1)) with x01.
    change (byteAt data (0 + 1 + 1)) with payloadLen.
    rewrite Hsr, Hil.
    cbn [Nat.add Nat.leb andb].
    change (int_of_byte x01) with 1. cbn [Nat.add Nat.ltb Nat.leb].
    change (slice data 3 4) with [x55].
    assert (Hpos : (0 <? Byte.to_N payloadLen)%N = true).
    { apply N.ltb_lt. unfold int_of_byte in Hlt. lia. }
    rewrite Hpos.
    change (N.to_nat (Byte.to_N payloadLen)) with (int_of_byte payloadLen).
    destruct (int_of_byte payloadLen) as [|m] eqn:E; [lia|].
    assert (C : (len partial <=? m)%nat = true) by (apply Nat.leb_le; lia).
    rewrite C.
    replace (S (S (S (S (len partial)))) - 4) with (len partial) by lia.
    change (sliceFrom data 4) with partial.
    destruct partial as [|b partial']; reflexivity. }
  unfold NDEF.parseNDEFMessage. rewrite Hlen. cbn [NDEF.parseLoop].
  change (0 <? len data)%nat with true. cbv iota.
  rewrite R. reflexivity.
Qed.

Lemma parse_truncated_payload_witness :
  NDEF.parseNDEFMessage
    ([xd1; x01; x0c; x55; x04] ++ list_byte_of_string "exam")
  = [ {| NDEF.recordNum := 1;
         NDEF.flags := NDEF.decodeHeader xd1;
         NDEF.body :=
           NDEF.PayloadExceeds x01 12 x00 [x55] [] 5
             (x04 :: list_byte_of_string "exam")
             (NDEF.URIPayload
                (URI.FullURI "https://exam" x04 "https://" "exam")) |} ].
Proof.
  exact (parse_truncated_payload xd1 x0c (x04 :: list_byte_of_string "exam")
           eq_refl eq_refl ltac:(vm_compute; lia)).
Defined.

(** X22: a long record.  For a record without the flag SR and without ID,
    of type 'U', whose 4 length bytes give, most significant byte first,
    the length of the payload that follows, the parser reports the record
    as complete, with that payload length, that payload, and its URI; with
    or without the flag ME it is the only record reported when the buffer
    ends with it. *)
Theorem parse_long_record (h b0 b1 b2 b3 : byte) (payload : list byte) :
  NDEF.sr (NDEF.decodeHeader h) = false ->
  NDEF.il (NDEF.decodeHeader h) = false ->
  payload <> [] ->
  N.of_nat (len payload) = NDEF.be32 b0 b1 b2 b3 ->
  NDEF.parseNDEFMessage (h :: x01 :: b0 :: b1 :: b2 :: b3 :: x55 :: payload)
  = [ {| NDEF.recordNum := 1;
         NDEF.flags := NDEF.decodeHeader h;
         NDEF.body :=
           NDEF.Parsed x01 (NDEF.be32 b0 b1 b2 b3) x00 [x55] [] payload
             (NDEF.URIPayload (URI.parseURIPayload payload)) |} ].
Proof.
  intros Hsr Hil Hne Hbe.
  set (data := h :: x01 :: b0 :: b1 :: b2 :: b3 :: x55 :: payload).
  assert (Hlen : len data = S (S (S (S (S (S (S (len payload)))))))) by reflexivity.
  assert (Hpl : 0 < len payload) by (destruct payload; [congruence|cbn; lia]).
  assert (R : NDEF.parseRecord data 0
              = (NDEF.Parsed x01 (NDEF.be32 b0 b1 b2 b3) x00 [x55] [] payload
                   (NDEF.URIPayload (URI.parseURIPayload payload)),
                 if NDEF.me (NDEF.decodeHeader h) then None
                 else Some (len data))).
  { unfold NDEF.parseRecord. rewrite Hlen.
    change (byteAt data 0) with h.
    change (byteAt data (0 + 1)) with x01.
    change (byteAt data (0 + 1 + 1)) with b0.
    change (byteAt data (0 + 1 + 1 + 1)) with b1.
    change (byteAt data (0 + 1 + 1 + 2)) with b2.
    change (byteAt data (0 + 1 + 1 + 3)) with b3.
    rewrite Hsr, Hil. rewrite <- Hbe.
    cbn [Nat.add Nat.leb andb].
    change (int_of_byte x01) with 1. cbn [Nat.add Nat.ltb Nat.leb].
    change (slice data 6 7) with [x55].
    assert (Hpos : (0 <? N.of_nat (len payload))%N = true)
      by (apply N.ltb_lt; lia).
    rewrite Hpos, Nat2N.id.
    change (match len payload with
            | 0 => false
            | S m' => (len payload <=? m')%nat
            end) with (len payload <? len payload)%nat.
    rewrite Nat.ltb_irrefl.
    assert (Sl : slice data 7 (S (S (S (S (S (S (S (len payload)))))))) = payload).
    { unfold slice. cbn [Nat.sub skipn data]. rewrite Nat.sub_0_r.
      apply firstn_all. }
    rewrite Sl. reflexivity. }
  unfold NDEF.parseNDEFMessage. rewrite Hlen. cbn [NDEF.parseLoop].
  change (0 <? len data)%nat with true. cbv iota.
  rewrite R. cbn [fst snd].
  destruct (NDEF.me (NDEF.decodeHeader h)); [reflexivity|].
  destruct (S (S (S (S (S (S (len payload))))))) as [|fuel];
    cbn [NDEF.parseLoop]; rewrite Nat.ltb_irrefl; reflexivity.
Qed.

Lemma parse_long_record_witness :
  NDEF.parseNDEFMessage
    ([xc1; x01; x00; x00; x01; x2c; x55; x04] ++ repeat x61 299)
  = [ {| NDEF.recordNum := 1;
         NDEF.flags := NDEF.decodeHeader xc1;
         NDEF.body :=
           NDEF.Parsed x01 300 x00 [x55] [] (x04 :: repeat x61 299)
             (NDEF.URIPayload (URI.parseURIPayload (x04 :: repeat x61 299))) |} ].
Proof.
  exact (parse_long_record xc1 x00 x00 x01 x2c (x04 :: repeat x61 299)
           eq_refl eq_refl ltac:(discriminate) eq_refl).
Defined.

Lemma readDataPages_range_witness :
  (4 <= Byte.to_N x05 <= Byte.to_N x2c)%N
  /\ exists groups,
       Forall2 lineReads
         [PageRead x04 [x03; x02; xd0; x00]; PageRead x05 [x00; xfe; x00; x00]]
         groups
       /\ [readAPDU x04; readAPDU x05] = [] ++ List.concat groups
       /\ forall apdu,
            In apdu (List.concat groups) ->
            exists page,
              (4 <= Byte.to_N page <= Byte.to_N x2c)%N
              /\ (apdu = [xff; xb0; x00; page; x04]
                  \/ apdu = [xff; xb0; x00; page; x10]
                  \/ apdu = [xff; xb0; x00; page]).
Proof.
  split.
  - apply (proj1 (proj2 (readDataPages_range _ scriptedCard NTAG213
                           (mkWorld [Ok [x03; x02; xd0; x00; x90; x00];
                                     Ok [x00; xfe; x00; x00; x90; x00]] [])))
             (PageRead x05 [x00; xfe; x00; x00])).
    vm_compute. tauto.
  - exact (proj2 (proj2 (readDataPages_range _ scriptedCard NTAG213
                           (mkWorld [Ok [x03; x02; xd0; x00; x90; x00];
                                     Ok [x00; xfe; x00; x00; x90; x00]] [])))).
Defined.
